(** * Multinode constraints of bioptim: a shallow embedding and its properties

    This development embeds [bioptim/limits/multinode_constraint.py] in Rocq
    and proves properties of

    - [MultinodeConstraint.__init__] (validation of nodes and phases, the
      [force_multinode] escape hatch),
    - [MultinodeConstraint.ensure_penalty_sanity] (slot allocation in the
      [g_internal] / [J_internal] pools),
    - [MultinodeConstraintList.prepare_multinode_constraints],
    - [MultinodeConstraintFunctions.Functions] ([states_equality],
      [controls_equality], [time_equality], [_prepare_controller_cx]).

    Python objects that the code mutates (controllers, constraints) live in
    a store indexed by object identity; Python exceptions are values of
    [Failure]; keyword dictionaries are [gmap string PyVal]. *)

From Stdlib Require Import ZArith QArith Lia.
From stdpp Require Import base strings gmap list pretty.
From Equations Require Import Equations.

Local Open Scope string_scope.
Local Open Scope list_scope.
Local Open Scope Z_scope.

(** ** Python values and exceptions *)

(** Members of [misc.enums.Node] that the module names. *)
Inductive Node := START | MID | PENULTIMATE | END | MULTINODES.

(** Members of [MultinodeConstraintFcn], lines 463-473. *)
Inductive MultinodeConstraintFcn :=
  | STATES_EQUALITY
  | CONTROLS_EQUALITY
  | CUSTOM
  | COM_EQUALITY
  | COM_VELOCITY_EQUALITY
  | TIME_CONSTRAINT.

(** The fragment of Python values that reaches the constructor: [None],
    booleans, integers, strings, [Node] members, [MultinodeConstraintFcn]
    members and callables (identified by their object identity). *)
Inductive PyVal :=
  | VNone
  | VBool (b : bool)
  | VInt (z : Z)
  | VStr (s : string)
  | VNode (n : Node)
  | VFcn (f : MultinodeConstraintFcn)
  | VCallable (id : nat).

#[global] Instance Node_eq_dec : EqDecision Node.
Proof. solve_decision. Defined.
#[global] Instance MultinodeConstraintFcn_eq_dec : EqDecision MultinodeConstraintFcn.
Proof. solve_decision. Defined.
#[global] Instance PyVal_eq_dec : EqDecision PyVal.
Proof. solve_decision. Defined.

(** [isinstance(v, int)]; [bool] is a subclass of [int]. *)
Definition isinstance_int (v : PyVal) : bool :=
  match v with VInt _ | VBool _ => true | _ => false end.

(** The number an [int] instance stands for ([True] is 1, [False] is 0). *)
Definition int_value (v : PyVal) : option Z :=
  match v with
  | VInt z => Some z
  | VBool b => Some (Z.b2z b)
  | _ => None
  end.

(** [isinstance(v, MultinodeConstraintFcn)] *)
Definition isinstance_MultinodeConstraintFcn (v : PyVal) : bool :=
  match v with VFcn _ => true | _ => false end.

(** [v in t] for a tuple [t]: some member compares equal to [v]. *)
Definition py_in (v : PyVal) (t : list PyVal) : bool :=
  existsb (fun w => bool_decide (v = w)) t.

(** [k in d] for a keyword dictionary. *)
Definition dict_contains {V} (k : string) (d : gmap string V) : bool :=
  match d !! k with Some _ => true | None => false end.

Inductive PyExcClass := ValueError | RuntimeError | TypeError | KeyError | IndexError.

(** The raise sites of the module, and the failures of the operations it
    relies on. *)
Inductive Failure :=
  | InvalidNodeSpecifier        (* line 79 *)
  | InvalidPhaseIndex           (* line 85 *)
  | ArityMismatch               (* line 88 *)
  | InvalidPhaseReference       (* line 194 *)
  | UnorderablePhase            (* [phase < 0] on a value that is not a number *)
  | ShapeMismatch               (* lines 241 and 278 *)
  | MissingTimeParameter (second : bool)   (* lines 408 and 421 *)
  | UnpackError                 (* [pre, post = controllers], length not 2 *)
  | SequenceIndexError          (* [controllers[0]] on an empty list *)
  | UnknownKey                  (* [states[key]] / [controls[key]] *)
  | CasadiOutOfBounds           (* [cx[i]] out of range *)
  | ParentFailure (c : PyExcClass).  (* raised by the parent constructor *)

Definition exc_class (e : Failure) : PyExcClass :=
  match e with
  | InvalidNodeSpecifier | InvalidPhaseIndex | ArityMismatch | UnpackError => ValueError
  | InvalidPhaseReference | ShapeMismatch | MissingTimeParameter _
  | CasadiOutOfBounds => RuntimeError
  | UnorderablePhase => TypeError
  | SequenceIndexError => IndexError
  | UnknownKey => KeyError
  | ParentFailure c => c
  end.

Inductive Result (A : Type) :=
  | Ok (a : A)
  | Raise (e : Failure).
Arguments Ok {A} a.
Arguments Raise {A} e.

Definition is_ok {A} (r : Result A) : bool :=
  match r with Ok _ => true | Raise _ => false end.

(** ** [MultinodeConstraint.__init__] *)

Inductive PenaltyBase := ConstraintFunction | MayerFunction.
Inductive InterpolationType := CONSTANT.
Inductive PenaltyType := INTERNAL.

(** [Bounds(interpolation=...)] *)
Record Bounds := { interpolation : InterpolationType }.

(** The attributes the parent constructor
    ([super(Constraint, self).__init__], line 74) leaves on the object.  The
    parent class is not part of this module, so its constructor is a
    parameter of [__init__] below. *)
Record PenaltyOption := {
  penalty : PyVal;
  custom_function : PyVal;
  params : gmap string PyVal;
  list_index : Z;
  base : PenaltyBase
}.

Record MultinodeConstraint := {
  parent : PenaltyOption;
  min_bound : Q;
  max_bound : Q;
  bounds : Bounds;
  multinode_constraint : bool;
  weight : Q;
  quadratic : bool;
  nodes_phase : list PyVal;
  nodes : list PyVal;
  node : Node;
  dt : Z;
  node_idx : list Z;
  penalty_type : PenaltyType
}.

Definition ParentInit : Type :=
  PyVal -> PyVal -> gmap string PyVal -> Result PenaltyOption.

(** Lines 64-73: the arguments [(penalty, custom_function, params)] handed
    to the parent constructor. *)
Definition super_call_args (multinode_constraint custom_function : PyVal)
    (params : gmap string PyVal) : PyVal * PyVal * gmap string PyVal :=
  let force_multinode := false in
  let '(force_multinode, params) :=
    if dict_contains "force_multinode" params
    then (true, delete "force_multinode" params)
    else (force_multinode, params) in
  let '(custom_function, multinode_constraint) :=
    if negb (isinstance_MultinodeConstraintFcn multinode_constraint)
       && negb force_multinode
    then (multinode_constraint, VFcn CUSTOM)
    else (custom_function, multinode_constraint) in
  (multinode_constraint, custom_function, params).

(** Lines 76-82: [for node in nodes: ...] *)
Fixpoint check_nodes (nodes : list PyVal) : Result unit :=
  match nodes with
  | [] => Ok tt
  | node :: rest =>
      if negb (py_in node [VNode START; VNode MID; VNode PENULTIMATE; VNode END])
      then if negb (isinstance_int node)
           then Raise InvalidNodeSpecifier
           else check_nodes rest
      else check_nodes rest
  end.

(** Lines 83-85: [for phase in nodes_phase: ...] *)
Fixpoint check_nodes_phase (nodes_phase : list PyVal) : Result unit :=
  match nodes_phase with
  | [] => Ok tt
  | phase :: rest =>
      if negb (isinstance_int phase)
      then Raise InvalidPhaseIndex
      else check_nodes_phase rest
  end.

(** Lines 76-102, run once the parent constructor has returned. *)
Definition init_after_super (nodes nodes_phase : list PyVal)
    (min_bound max_bound weight : Q) (super : Result PenaltyOption)
    : Result MultinodeConstraint :=
  match super with
  | Raise e => Raise e
  | Ok self =>
      match check_nodes nodes with
      | Raise e => Raise e
      | Ok _ =>
          match check_nodes_phase nodes_phase with
          | Raise e => Raise e
          | Ok _ =>
              if negb (bool_decide (length nodes = length nodes_phase))
              then Raise ArityMismatch
              else Ok {| parent := self;
                         min_bound := min_bound;
                         max_bound := max_bound;
                         bounds := {| interpolation := CONSTANT |};
                         multinode_constraint := true;
                         weight := weight;
                         quadratic := true;
                         nodes_phase := nodes_phase;
                         nodes := nodes;
                         node := MULTINODES;
                         dt := 1;
                         node_idx := [0];
                         penalty_type := INTERNAL |}
          end
      end
  end.

(** Line 74: the call of the parent constructor. *)
Definition super_call (parent_init : ParentInit)
    (multinode_constraint custom_function : PyVal)
    (params : gmap string PyVal) : Result PenaltyOption :=
  let '(penalty, custom_function, params) :=
    super_call_args multinode_constraint custom_function params in
  parent_init penalty custom_function params.

(** [MultinodeConstraint.__init__], lines 44-102. *)
Definition __init__ (parent_init : ParentInit)
    (nodes nodes_phase : list PyVal)
    (multinode_constraint custom_function : PyVal)
    (min_bound max_bound weight : Q)
    (params : gmap string PyVal) : Result MultinodeConstraint :=
  init_after_super nodes nodes_phase min_bound max_bound weight
    (super_call parent_init multinode_constraint custom_function params).

(** A parent constructor that stores what it receives, for concrete runs. *)
Definition recording_parent : ParentInit :=
  fun penalty custom_function params =>
    Ok {| penalty := penalty; custom_function := custom_function;
          params := params; list_index := -1; base := ConstraintFunction |}.

(** ** Pools and [MultinodeConstraint.ensure_penalty_sanity] *)

(** A pool entry: the empty list [[]] or a penalty object (line 116 stores
    the penalty itself, identified here by its object identity). *)
Inductive Slot :=
  | EmptySlot
  | PenaltySlot (id : nat).

#[global] Instance Slot_eq_dec : EqDecision Slot.
Proof. solve_decision. Defined.

(** [not j]: the empty list is falsy, a penalty object is truthy. *)
Definition py_not (j : Slot) : bool :=
  match j with EmptySlot => true | PenaltySlot _ => false end.

Record Ocp := {
  n_phases : Z;
  ocp_g_internal : list Slot;
  ocp_J_internal : list Slot
}.

Record Nlp := {
  nlp_g_internal : list Slot;
  nlp_J_internal : list Slot
}.

Definition set_list_index (self : MultinodeConstraint) (i : Z) : MultinodeConstraint :=
  {| parent := {| penalty := penalty (parent self);
                  custom_function := custom_function (parent self);
                  params := params (parent self);
                  list_index := i;
                  base := base (parent self) |};
     min_bound := min_bound self; max_bound := max_bound self;
     bounds := bounds self; multinode_constraint := multinode_constraint self;
     weight := weight self; quadratic := quadratic self;
     nodes_phase := nodes_phase self; nodes := nodes self; node := node self;
     dt := dt self; node_idx := node_idx self;
     penalty_type := penalty_type self |}.

(** Lines 125-128: [for i, j in enumerate(g_to_add_to): if not j: ... return],
    started at index [i]; [Some i] is the index claimed by the early return,
    [None] means the loop ran to its end. *)
Fixpoint scan_empty (i : Z) (g_to_add_to : list Slot) : option Z :=
  match g_to_add_to with
  | [] => None
  | j :: rest => if py_not j then Some i else scan_empty (i + 1) rest
  end.

(** Lines 133-134: [while self.list_index >= len(g_to_add_to): append([])]. *)
Equations? grow_pool (list_index : Z) (g_to_add_to : list Slot) : list Slot
  by wf (Z.to_nat (list_index + 1 - Z.of_nat (length g_to_add_to))) lt :=
  grow_pool list_index g_to_add_to
    with decide (list_index >= Z.of_nat (length g_to_add_to)) := {
    | left _ => grow_pool list_index (g_to_add_to ++ [EmptySlot]);
    | right _ => g_to_add_to }.
Proof. rewrite length_app. simpl. lia. Qed.

(** Lines 124-135 on the selected pool: the updated constraint and pool. *)
Definition allocate_slot (self : MultinodeConstraint) (g_to_add_to : list Slot)
    : MultinodeConstraint * list Slot :=
  if list_index (parent self) <? 0 then
    match scan_empty 0 g_to_add_to with
    | Some i => (set_list_index self i, g_to_add_to)
    | None =>
        let g_to_add_to := g_to_add_to ++ [EmptySlot] in
        (set_list_index self (Z.of_nat (length g_to_add_to) - 1), g_to_add_to)
    end
  else
    let g_to_add_to := grow_pool (list_index (parent self)) g_to_add_to in
    (self, <[Z.to_nat (list_index (parent self)) := EmptySlot]> g_to_add_to).

(** The pool lines 119-122 select. *)
Inductive PoolName := Nlp_g | Nlp_J | Ocp_g | Ocp_J.

Definition selected_pool (self : MultinodeConstraint) (nlp : option Nlp) : PoolName :=
  if Qeq_bool (weight self) 0
  then match nlp with Some _ => Nlp_g | None => Ocp_g end
  else match nlp with Some _ => Nlp_J | None => Ocp_J end.

Definition pool_of (name : PoolName) (ocp : Ocp) (nlp : option Nlp) : list Slot :=
  match name, nlp with
  | Ocp_g, _ => ocp_g_internal ocp
  | Ocp_J, _ => ocp_J_internal ocp
  | Nlp_g, Some n => nlp_g_internal n
  | Nlp_J, Some n => nlp_J_internal n
  | _, None => []
  end.

(** [MultinodeConstraint.ensure_penalty_sanity], lines 118-135.  The pool is
    a list object owned by [nlp] or [ocp] and is mutated in place, so the
    owner is returned with the updated pool. *)
Definition ensure_penalty_sanity (self : MultinodeConstraint) (ocp : Ocp)
    (nlp : option Nlp) : MultinodeConstraint * Ocp * option Nlp :=
  if Qeq_bool (weight self) 0 then
    match nlp with
    | Some n =>
        let '(self, g) := allocate_slot self (nlp_g_internal n) in
        (self, ocp, Some {| nlp_g_internal := g; nlp_J_internal := nlp_J_internal n |})
    | None =>
        let '(self, g) := allocate_slot self (ocp_g_internal ocp) in
        (self, {| n_phases := n_phases ocp; ocp_g_internal := g;
                  ocp_J_internal := ocp_J_internal ocp |}, None)
    end
  else
    match nlp with
    | Some n =>
        let '(self, g) := allocate_slot self (nlp_J_internal n) in
        (self, ocp, Some {| nlp_g_internal := nlp_g_internal n; nlp_J_internal := g |})
    | None =>
        let '(self, g) := allocate_slot self (ocp_J_internal ocp) in
        (self, {| n_phases := n_phases ocp; ocp_g_internal := ocp_g_internal ocp;
                  ocp_J_internal := g |}, None)
    end.

(** ** A state-and-exception monad for code that mutates objects *)

Definition M (S A : Type) : Type := S -> S * Result A.

Definition ret {S A} (a : A) : M S A := fun s => (s, Ok a).

Definition bind {S A B} (c : M S A) (k : A -> M S B) : M S B :=
  fun s =>
    match c s with
    | (s', Ok a) => k a s'
    | (s', Raise e) => (s', Raise e)
    end.

Definition raise {S A} (e : Failure) : M S A := fun s => (s, Raise e).
Definition get {S} : M S S := fun s => (s, Ok s).
Definition modify {S} (f : S -> S) : M S unit := fun s => (f s, Ok tt).

(** A pure computation that may raise. *)
Definition lift {S A} (r : Result A) : M S A := fun s => (s, r).

Notation "x <- c ;; k" := (bind c (fun x => k))
  (at level 100, c at next level, right associativity).
Notation "c ;;; k" := (bind c (fun _ => k))
  (at level 100, right associativity).

(** [for x in l: body x] *)
Fixpoint for_each {S A} (l : list A) (body : A -> M S unit) : M S unit :=
  match l with
  | [] => ret tt
  | x :: rest => body x ;;; for_each rest body
  end.

(** A [for] loop that updates a local variable [acc]. *)
Fixpoint for_fold {S A B} (l : list A) (acc : B) (body : B -> A -> M S B) : M S B :=
  match l with
  | [] => ret acc
  | x :: rest => acc <- body acc x ;; for_fold rest acc body
  end.

(** ** [MultinodeConstraintList.prepare_multinode_constraints] *)

(** The objects [prepare_multinode_constraints] can reach: the constraints
    of the list (by object identity), the program and its phases. *)
Record World := {
  mnc_store : nat -> MultinodeConstraint;
  world_ocp : Ocp;
  world_nlp : list Nlp
}.

Definition set_base (self : MultinodeConstraint) (b : PenaltyBase) : MultinodeConstraint :=
  {| parent := {| penalty := penalty (parent self);
                  custom_function := custom_function (parent self);
                  params := params (parent self);
                  list_index := list_index (parent self);
                  base := b |};
     min_bound := min_bound self; max_bound := max_bound self;
     bounds := bounds self; multinode_constraint := multinode_constraint self;
     weight := weight self; quadratic := quadratic self;
     nodes_phase := nodes_phase self; nodes := nodes self; node := node self;
     dt := dt self; node_idx := node_idx self;
     penalty_type := penalty_type self |}.

(** [mnc.base = b] on the object [mnc]. *)
Definition assign_base (mnc : nat) (b : PenaltyBase) : M World unit :=
  modify (fun w =>
    {| mnc_store := fun r => if bool_decide (r = mnc)
                             then set_base (mnc_store w r) b
                             else mnc_store w r;
       world_ocp := world_ocp w;
       world_nlp := world_nlp w |}).

(** [phase < 0 or phase >= n_phases]; Python refuses to order a value that
    is not a number against an integer. *)
Definition phase_out_of_range (phase : PyVal) (n_phases : Z) : Result bool :=
  match int_value phase with
  | Some z => Ok ((z <? 0) || (z >=? n_phases))
  | None => Raise UnorderablePhase
  end.

(** Lines 192-194. *)
Definition check_phases (mnc : nat) : M World unit :=
  w <- get ;;
  for_each (nodes_phase (mnc_store w mnc)) (fun phase =>
    out <- lift (phase_out_of_range phase (n_phases (world_ocp w))) ;;
    if out then raise InvalidPhaseReference else ret tt).

(** [if mnc.weight:] a number is truthy when it is not zero. *)
Definition truthy (weight : Q) : bool := negb (Qeq_bool weight 0).

(** Lines 192-199: the body of the loop over the constraints. *)
Definition prepare_one (full_phase_multinode_constraint : list nat) (mnc : nat)
    : M World (list nat) :=
  check_phases mnc ;;;
  w <- get ;;
  (if truthy (weight (mnc_store w mnc))
   then assign_base mnc MayerFunction
   else ret tt) ;;;
  ret (full_phase_multinode_constraint ++ [mnc]).

(** Lines 190-201.  [self] is the list's content in insertion order; the
    returned list holds the same objects. *)
Definition prepare_multinode_constraints (self : list nat) : M World (list nat) :=
  for_fold self [] prepare_one.

(** ** Controllers and the residual functions *)

(** The arithmetic of the entries of a casadi vector: [0], [+] and [-]. *)
Class Scalar (R : Type) := {
  szero : R;
  sadd : R -> R -> R;
  ssub : R -> R -> R
}.

#[global] Instance Z_Scalar : Scalar Z :=
  {| szero := 0; sadd := Z.add; ssub := Z.sub |}.

Section Functions.
Context {R : Type} {scalar : Scalar R}.

(** A casadi column vector and its [shape]. *)
Definition CX : Type := list R.

Definition shape (v : CX) : nat * nat := (length v, 1%nat).

(** [cx.zeros(shape)] *)
Definition zeros (s : nat * nat) : CX := replicate (fst s * snd s) szero.

(** Entrywise [a + b] and [a - b] of two vectors of one shape. *)
Definition vadd (a b : CX) : CX := zip_with sadd a b.
Definition vsub (a b : CX) : CX := zip_with ssub a b.

(** [Mapping.map] of the [states_mapping] of a constraint; the mapping
    classes live outside this module, so a mapping is the function it
    applies. *)
Record Mapping := { mapping_map : CX -> CX }.
Record BiMapping := { to_second : Mapping; to_first : Mapping }.

(** What the functions read from a [PenaltyController].  [states] and
    [controls] give [states[key].cx] and [controls[key].cx] as a function of
    the occurrence selector [cx_index_to_get]; [None] is an unknown key.
    [parameters] is [parameters.cx], each entry with its [name()]. *)
Record Controller := {
  phase_idx : Z;
  cx_index_to_get : Z;
  states : Z -> string -> option CX;
  controls : Z -> string -> option CX;
  parameters : list (string * R)
}.

(** The controller objects, by object identity. *)
Definition Heap : Type := nat -> Controller.

Definition set_cx_index_to_get (c : Controller) (v : Z) : Controller :=
  {| phase_idx := phase_idx c; cx_index_to_get := v; states := states c;
     controls := controls c; parameters := parameters c |}.

(** [controller.cx_index_to_get = v] on the object [controller]. *)
Definition assign_cx_index_to_get (controller : nat) (v : Z) : M Heap unit :=
  modify (fun h r => if bool_decide (r = controller)
                     then set_cx_index_to_get (h r) v
                     else h r).

(** [sum(l)] of a list of booleans, counted as 0 and 1. *)
Definition py_sum (l : list bool) : Z :=
  fold_left (fun acc b => acc + Z.b2z b) l 0.

(** Lines 457-460, from a given [existing_phases]. *)
Definition prepare_loop (controllers : list nat) (existing_phases : list Z)
    : M Heap (list Z) :=
  for_fold controllers existing_phases (fun existing_phases controller =>
    h <- get ;;
    assign_cx_index_to_get controller
      (py_sum (List.map (fun i => bool_decide (i = phase_idx (h controller)))
                        existing_phases)) ;;;
    h <- get ;;
    ret (existing_phases ++ [phase_idx (h controller)])).

(** [Functions._prepare_controller_cx], lines 450-460. *)
Definition _prepare_controller_cx (controllers : list nat) : M Heap unit :=
  prepare_loop controllers [] ;;; ret tt.

(** [controllers[0]] *)
Definition first_controller (controllers : list nat) : Result nat :=
  match controllers with
  | [] => Raise SequenceIndexError
  | c :: _ => Ok c
  end.

(** [ctrl.states[key].cx] and [ctrl.controls[key].cx] *)
Definition states_cx (ctrl : nat) (key : string) : M Heap CX :=
  h <- get ;;
  match states (h ctrl) (cx_index_to_get (h ctrl)) key with
  | Some v => ret v
  | None => raise UnknownKey
  end.

Definition controls_cx (ctrl : nat) (key : string) : M Heap CX :=
  h <- get ;;
  match controls (h ctrl) (cx_index_to_get (h ctrl)) key with
  | Some v => ret v
  | None => raise UnknownKey
  end.

(** [Functions.states_equality], lines 214-249.  [states_mapping] is
    [constraint.states_mapping]; [for i in range(1, len(controllers))] visits
    the controllers after the first, in order. *)
Definition states_equality (states_mapping : BiMapping)
    (controllers : list nat) (key : string) : M Heap CX :=
  _prepare_controller_cx controllers ;;;
  ctrl_0 <- lift (first_controller controllers) ;;
  cx_0 <- states_cx ctrl_0 key ;;
  let states_0 := mapping_map (to_second states_mapping) cx_0 in
  let out := zeros (shape states_0) in
  for_fold (drop 1 controllers) out (fun out ctrl_i =>
    cx_i <- states_cx ctrl_i key ;;
    let states_i := mapping_map (to_first states_mapping) cx_i in
    if negb (bool_decide (shape states_0 = shape states_i))
    then raise ShapeMismatch
    else ret (vadd out (vsub states_0 states_i))).

(** [Functions.controls_equality], lines 251-286. *)
Definition controls_equality (controllers : list nat) (key : string) : M Heap CX :=
  _prepare_controller_cx controllers ;;;
  ctrl_0 <- lift (first_controller controllers) ;;
  controls_0 <- controls_cx ctrl_0 key ;;
  let out := zeros (shape controls_0) in
  for_fold (drop 1 controllers) out (fun out ctrl_i =>
    controls_i <- controls_cx ctrl_i key ;;
    if negb (bool_decide (shape controls_0 = shape controls_i))
    then raise ShapeMismatch
    else ret (vadd out (vsub controls_0 controls_i))).

(** [pre, post = controllers] *)
Definition unpack_pair (controllers : list nat) : Result (nat * nat) :=
  match controllers with
  | [pre; post] => Ok (pre, post)
  | _ => Raise UnpackError
  end.

(** ["time_phase_" + str(phase_idx)] *)
Definition time_phase_name (phase_idx : Z) : string :=
  "time_phase_" +:+ pretty phase_idx.

(** Lines 403-406 (and 416-419): the loop over the entries of
    [parameters.cx]; [time_idx] is [time_pre_idx] (resp. [time_post_idx]),
    [None] until the name is met. *)
Fixpoint find_time_idx (cx : list (string * R)) (phase_idx : Z)
    (time_idx : option Z) : option Z :=
  match cx with
  | [] => time_idx
  | entry :: rest =>
      let param_name := fst entry in
      find_time_idx rest phase_idx
        (if bool_decide (param_name = time_phase_name phase_idx)
         then Some phase_idx
         else time_idx)
  end.

(** [cx[i]] on a casadi vector: a negative index counts from the end, an
    index outside the vector is refused. *)
Definition casadi_getitem (cx : list (string * R)) (i : Z) : Result (string * R) :=
  let n := Z.of_nat (length cx) in
  let i := if i <? 0 then i + n else i in
  if (0 <=? i) && (i <? n)
  then match cx !! Z.to_nat i with
       | Some entry => Ok entry
       | None => Raise CasadiOutOfBounds
       end
  else Raise CasadiOutOfBounds.

(** [Functions.time_equality], lines 382-428. *)
Definition time_equality (controllers : list nat) : M Heap R :=
  _prepare_controller_cx controllers ;;;
  both <- lift (unpack_pair controllers) ;;
  let pre := fst both in
  let post := snd both in
  h <- get ;;
  match find_time_idx (parameters (h pre)) (phase_idx (h pre)) None with
  | None => raise (MissingTimeParameter false)
  | Some time_pre_idx =>
      match find_time_idx (parameters (h post)) (phase_idx (h post)) None with
      | None => raise (MissingTimeParameter true)
      | Some time_post_idx =>
          time_pre <- lift (casadi_getitem (parameters (h pre)) time_pre_idx) ;;
          time_post <- lift (casadi_getitem (parameters (h post)) time_post_idx) ;;
          ret (ssub (snd time_pre) (snd time_post))
      end
  end.

(** The value of the entry of [cx] named ["time_phase_<phase_idx>"], if
    there is one: the parameter the search of [time_equality] locates. *)
Definition located_time (cx : list (string * R)) (phase_idx : Z) : option R :=
  snd <$> List.find (fun entry => bool_decide (fst entry = time_phase_name phase_idx)) cx.

End Functions.

Arguments CX R : clear implicits.
Arguments Mapping R : clear implicits.
Arguments BiMapping R : clear implicits.
Arguments Controller R : clear implicits.
Arguments Heap R : clear implicits.

(** ** Vocabulary of the statements *)

Definition raises_ValueError {A} (r : Result A) : Prop :=
  exists e, r = Raise e /\ exc_class e = ValueError.

(** One of [Node.START], [Node.MID], [Node.PENULTIMATE], [Node.END]. *)
Definition is_marker (v : PyVal) : bool :=
  py_in v [VNode START; VNode MID; VNode PENULTIMATE; VNode END].

(** A node the loop of lines 76-82 lets through: a marker or an [int]. *)
Definition marker_or_int (v : PyVal) : bool :=
  is_marker v || isinstance_int v.

(** The validity of a node in the words of the specification: one of the
    four markers or a non-negative integer. *)
Definition marker_or_non_negative_int (v : PyVal) : bool :=
  is_marker v ||
  match int_value v with Some z => 0 <=? z | None => false end.

(** Some node is not [valid_node], or some phase is not an integer, or the
    two sequences differ in length. *)
Definition rejected (valid_node : PyVal -> bool) (nodes nodes_phase : list PyVal) : Prop :=
  (exists node, node ∈ nodes /\ valid_node node = false) \/
  (exists phase, phase ∈ nodes_phase /\ isinstance_int phase = false) \/
  length nodes <> length nodes_phase.

(** The pool [ensure_penalty_sanity] works on, before and after the call,
    and the constraint after the call. *)
Definition pool_before (self : MultinodeConstraint) (ocp : Ocp) (nlp : option Nlp)
    : list Slot :=
  pool_of (selected_pool self nlp) ocp nlp.

Definition pool_after (self : MultinodeConstraint) (ocp : Ocp) (nlp : option Nlp)
    : list Slot :=
  let r := ensure_penalty_sanity self ocp nlp in
  pool_of (selected_pool self nlp) r.1.2 r.2.

Definition link_after (self : MultinodeConstraint) (ocp : Ocp) (nlp : option Nlp)
    : MultinodeConstraint :=
  (ensure_penalty_sanity self ocp nlp).1.1.

(** A constraint as [__init__] builds it, with a given slot and weight. *)
Definition example_link (slot : Z) (w : Q) (phases : list PyVal) : MultinodeConstraint :=
  {| parent := {| penalty := VFcn STATES_EQUALITY; custom_function := VNone;
                  params := ∅; list_index := slot; base := ConstraintFunction |};
     min_bound := 0; max_bound := 0;
     bounds := {| interpolation := CONSTANT |};
     multinode_constraint := true; weight := w; quadratic := true;
     nodes_phase := phases; nodes := [VNode END; VNode START];
     node := MULTINODES; dt := 1; node_idx := [0]; penalty_type := INTERNAL |}.

Definition example_ocp (g J : list Slot) : Ocp :=
  {| n_phases := 2; ocp_g_internal := g; ocp_J_internal := J |}.

(** [phase] is an integer of [[0, n_phases)]. *)
Definition in_range (n_phases : Z) (phase : PyVal) : bool :=
  match int_value phase with
  | Some z => (0 <=? z) && (z <? n_phases)
  | None => false
  end.

(** Every phase of the constraint [mnc] is an integer of [[0, n_phases)]. *)
Definition phases_in_range (w : World) (mnc : nat) : bool :=
  forallb (in_range (n_phases (world_ocp w))) (nodes_phase (mnc_store w mnc)).

(** The constraint [mnc] references a phase index outside [[0, n_phases)]. *)
Definition references_invalid_phase (w : World) (mnc : nat) : Prop :=
  exists phase z,
    phase ∈ nodes_phase (mnc_store w mnc) /\
    int_value phase = Some z /\
    (z < 0 \/ n_phases (world_ocp w) <= z).

(** The invariant [__init__] establishes: every phase index is an [int]. *)
Definition integer_phases (w : World) (mnc : nat) : Prop :=
  forallb isinstance_int (nodes_phase (mnc_store w mnc)) = true.

(** The constraint objects once the constraints of [done] have been
    through lines 196-197. *)
Definition marked (done : list nat) (store : nat -> MultinodeConstraint) (r : nat)
    : MultinodeConstraint :=
  if bool_decide (r ∈ done) && truthy (weight (store r))
  then set_base (store r) MayerFunction
  else store r.

(** The objects after lines 196-199 have run on the constraint [mnc]. *)
Definition mark_one (mnc : nat) (w : World) : World :=
  if truthy (weight (mnc_store w mnc))
  then {| mnc_store := fun r => if bool_decide (r = mnc)
                                then set_base (mnc_store w r) MayerFunction
                                else mnc_store w r;
          world_ocp := world_ocp w;
          world_nlp := world_nlp w |}
  else w.

(** Two constraints (objects 0 and 1) of a two-phase program; the second
    one references phase 5. *)
Definition example_world : World :=
  {| mnc_store := fun r =>
       match r with
       | O => example_link (-1) 1 [VInt 0; VInt 1]
       | _ => example_link (-1) 0 [VInt 0; VInt 5]
       end;
     world_ocp := example_ocp [] [];
     world_nlp := [] |}.

Section ControllerVocabulary.
Context {R : Type}.

(** The controller objects once [_prepare_controller_cx] has run. *)
Definition prepared (controllers : list nat) (h : Heap R) : Heap R :=
  (_prepare_controller_cx controllers h).1.

(** [ctrl.states[key].cx] and [ctrl.controls[key].cx] as read from the
    object [ctrl] in the heap [h]. *)
Definition read_states (h : Heap R) (ctrl : nat) (key : string) : option (CX R) :=
  states (h ctrl) (cx_index_to_get (h ctrl)) key.

Definition read_controls (h : Heap R) (ctrl : nat) (key : string) : option (CX R) :=
  controls (h ctrl) (cx_index_to_get (h ctrl)) key.

(** The number of controllers at positions before [i] whose phase index is
    that of the controller [c]. *)
Definition occurrences_before (h : Heap R) (controllers : list nat) (i c : nat) : Z :=
  Z.of_nat (length (filter (fun c' => phase_idx (h c') = phase_idx (h c))
                           (take i controllers))).

End ControllerVocabulary.

(** The loops of lines 236-247 and 273-284 have one shape: read a vector,
    map it, compare the shapes, accumulate the difference. *)
Definition equality_body {R : Type} {scalar : Scalar R} (read : Heap R -> nat -> option (CX R))
    (f : CX R -> CX R) (v0 : CX R) (body : CX R -> nat -> M (Heap R) (CX R)) : Prop :=
  forall out c h,
    body out c h =
    match read h c with
    | None => (h, Raise UnknownKey)
    | Some x =>
        if negb (bool_decide (shape v0 = shape (f x)))
        then (h, Raise ShapeMismatch)
        else (h, Ok (vadd out (vsub v0 (f x))))
    end.

(** Controllers (object [r] in phase [r]) that share their states and whose
    controls have [r + 1] entries. *)
Definition continuity_heap : Heap Z :=
  fun r =>
    {| phase_idx := Z.of_nat r;
       cx_index_to_get := 0;
       states := fun _ key => if bool_decide (key = "all") then Some [4; 7] else None;
       controls := fun _ key =>
         if bool_decide (key = "all") then Some (replicate (S r) 0) else None;
       parameters := [] |}.

(** A mapping whose [to_first] adds an entry. *)
Definition padding_mapping : BiMapping Z :=
  {| to_second := {| mapping_map := fun v => v |};
     to_first := {| mapping_map := fun v => 0 :: v |} |}.

(** A controller of phase [p] whose states at occurrence [k] are
    [[10 * p + k]]. *)
Definition example_controller (p : Z) (ps : list (string * Z)) : Controller Z :=
  {| phase_idx := p;
     cx_index_to_get := 0;
     states := fun k key => if bool_decide (key = "all") then Some [10 * p + k] else None;
     controls := fun k key => if bool_decide (key = "all") then Some [p; k] else None;
     parameters := ps |}.

(** Two controllers of phase 2 (objects 0 and 1). *)
Definition same_phase_heap : Heap Z := fun _ => example_controller 2 [].

(** A controller of phase 0 (object 0) and controllers of phase 1. *)
Definition two_phase_heap : Heap Z :=
  fun r => match r with
           | O => example_controller 0 []
           | _ => example_controller 1 []
           end.

(** The parameters of a four-phase program whose phase 0 has a fixed
    duration: the durations of phases 1, 2 and 3. *)
Definition time_parameters : list (string * Z) :=
  [("time_phase_1", 3); ("time_phase_2", 3); ("time_phase_3", 8)].

(** Controllers of phase 1 (object 0) and phase 2 (object 1) of that
    program. *)
Definition time_heap : Heap Z :=
  fun r => match r with
           | O => example_controller 1 time_parameters
           | _ => example_controller 2 time_parameters
           end.

Definition identity_mapping : BiMapping Z :=
  {| to_second := {| mapping_map := fun v => v |};
     to_first := {| mapping_map := fun v => v |} |}.

(** ** Further functions of the module *)

(** *** [MultinodeConstraintList.add] *)

(** The keyword arguments of the call of the inherited [_add], lines
    167-169, next to [option_type=MultinodeConstraint]. *)
Record AddCall := {
  add_multinode_constraint : PyVal;
  add_phase : Z;
  add_extra_arguments : gmap string PyVal
}.

(** A call that names a keyword and also finds it in [**extra_arguments]:
    Python refuses it with a [TypeError]. *)
Inductive CallFailure := MultipleValues.

(** [MultinodeConstraintList.add], lines 152-169, up to the call of
    [_add]. *)
Definition add (multinode_constraint : PyVal) (extra_arguments : gmap string PyVal)
    : CallFailure + AddCall :=
  let '(extra_arguments, multinode_constraint) :=
    if negb (isinstance_MultinodeConstraintFcn multinode_constraint)
    then (<["custom_function" := multinode_constraint]> extra_arguments, VFcn CUSTOM)
    else (extra_arguments, multinode_constraint) in
  if dict_contains "option_type" extra_arguments
     || dict_contains "multinode_constraint" extra_arguments
     || dict_contains "phase" extra_arguments
  then inl MultipleValues
  else inr {| add_multinode_constraint := multinode_constraint;
              add_phase := -1;
              add_extra_arguments := extra_arguments |}.

(** A parent constructor that refuses everything. *)
Definition refusing_parent : ParentInit :=
  fun _ _ _ => Raise (ParentFailure TypeError).

(** *** [MultinodeConstraint._add_penalty_to_pool] *)

(** The argument [controller]: a list or tuple of controllers, or a value
    of another type. *)
Inductive ControllerArg :=
  | NotASequence
  | ControllerSequence (controllers : list nat).

Inductive PoolFailure :=
  | NotCalledWithList        (* line 106, a RuntimeError *)
  | EmptySequence            (* [controller[0]] on an empty sequence *)
  | AssignmentOutOfRange.    (* [pool[i] = x] with [i] outside the list *)

(** [pool[i] = x] on a Python list: a negative index counts from the end,
    an index outside the list is an [IndexError]. *)
Definition list_setitem (pool : list Slot) (i : Z) (x : Slot) : option (list Slot) :=
  let n := Z.of_nat (length pool) in
  let i := if i <? 0 then i + n else i in
  if (0 <=? i) && (i <? n)
  then Some (<[Z.to_nat i := x]> pool)
  else None.

(** The owners after the pool [name] has become [g]. *)
Definition with_pool (name : PoolName) (g : list Slot) (ocp : Ocp) (nlp : option Nlp)
    : Ocp * option Nlp :=
  match name, nlp with
  | Ocp_g, _ =>
      ({| n_phases := n_phases ocp; ocp_g_internal := g;
          ocp_J_internal := ocp_J_internal ocp |}, nlp)
  | Ocp_J, _ =>
      ({| n_phases := n_phases ocp; ocp_g_internal := ocp_g_internal ocp;
          ocp_J_internal := g |}, nlp)
  | Nlp_g, Some n =>
      (ocp, Some {| nlp_g_internal := g; nlp_J_internal := nlp_J_internal n |})
  | Nlp_J, Some n =>
      (ocp, Some {| nlp_g_internal := nlp_g_internal n; nlp_J_internal := g |})
  | _, None => (ocp, nlp)
  end.

(** [MultinodeConstraint._add_penalty_to_pool], lines 104-116.  [self_id]
    is the identity of [self]; [ocp] and [nlp] are [controller[0].ocp] and
    [controller[0].get_nlp].  The owners are returned with the pool that
    was written. *)
Definition _add_penalty_to_pool (self_id : nat) (self : MultinodeConstraint)
    (controller : ControllerArg) (ocp : Ocp) (nlp : option Nlp)
    : PoolFailure + (Ocp * option Nlp) :=
  match controller with
  | NotASequence => inl NotCalledWithList
  | ControllerSequence [] => inl EmptySequence
  | ControllerSequence (_ :: _) =>
      let pool := pool_of (selected_pool self nlp) ocp nlp in
      match list_setitem pool (list_index (parent self)) (PenaltySlot self_id) with
      | Some pool => inr (with_pool (selected_pool self nlp) pool ocp nlp)
      | None => inl AssignmentOutOfRange
      end
  end.

(** The pool [_add_penalty_to_pool] has written, after a successful call. *)
Definition registered_pool (self_id : nat) (self : MultinodeConstraint)
    (controller : ControllerArg) (ocp : Ocp) (nlp : option Nlp) : option (list Slot) :=
  match _add_penalty_to_pool self_id self controller ocp nlp with
  | inr (ocp', nlp') => Some (pool_of (selected_pool self nlp) ocp' nlp')
  | inl _ => None
  end.

(** *** [Functions.custom] *)

(** [Functions.custom], lines 430-448.  [custom_function] stands for
    [constraint.custom_function] applied to the constraint and the extra
    parameters: a computation on the controllers that returns a residual or
    raises. *)
Definition custom {R : Type} (custom_function : list nat -> M (Heap R) (CX R))
    (controllers : list nat) : M (Heap R) (CX R) :=
  _prepare_controller_cx controllers ;;; custom_function controllers.

(** Object [r] is a controller of phase [r mod 2] with a stale index. *)
Definition stale_heap : Heap Z :=
  fun r =>
    {| phase_idx := Z.of_nat (r mod 2);
       cx_index_to_get := 40;
       states := fun _ _ => None;
       controls := fun _ _ => None;
       parameters := [] |}.


(** ** [biorbd_optim/misc/non_linear_program.py] *)

(** Objects as [NonLinearProgram.__init__] handles them: [None], a
    reference to a mutable container (a list or a dict, by object identity),
    a tuple of one item, or another value. *)
Inductive Obj :=
  | ONone
  | ORef (addr : nat)
  | OTuple1 (item : Obj)
  | OVal (v : PyVal).

(** The parameters of [NonLinearProgram.__init__], lines 4-39, each with
    its default.  A default [[]] or [{}] is one object, created when the
    function is defined: the containers 0 to 10. *)
Definition nlp_parameters : list (string * Obj) :=
  [("CX", ONone); ("J", ORef 0); ("U", ONone); ("U_bounds", ONone);
   ("U_init", ONone); ("X", ONone); ("X_bounds", ONone); ("X_init", ONone);
   ("casadi_func", ORef 1); ("control_type", ONone); ("dt", ONone);
   ("dynamics", ORef 2); ("dynamics_func", ONone); ("dynamics_type", ONone);
   ("external_forces", ONone); ("g", ORef 3); ("g_bounds", ORef 4);
   ("mapping", ORef 5); ("model", ONone); ("nb_integration_steps", ONone);
   ("nb_threads", ONone); ("ns", ONone); ("nu", ONone); ("nx", ONone);
   ("ode_solver", ONone); ("p", ONone); ("par_dynamics", ORef 6);
   ("phase_idx", ONone); ("plot", ORef 7); ("shape", ORef 8); ("t0", ONone);
   ("tf", ONone); ("u", ONone); ("var_controls", ORef 9);
   ("var_states", ORef 10); ("x", ONone)].

(** The argument bound to a parameter: the keyword argument, or the
    default. *)
Definition bound_argument (kwargs : gmap string Obj) (name : string) (dflt : Obj) : Obj :=
  match kwargs !! name with
  | Some v => v
  | None => dflt
  end.

(** The right-hand side of the assignment to [self.<name>], lines 41-76:
    the argument, except for [mapping] (line 58) and [shape] (line 70),
    which are stored as [(mapping,)] and [(shape,)]. *)
Definition stored_value (name : string) (arg : Obj) : Obj :=
  if bool_decide (name = "mapping") || bool_decide (name = "shape")
  then OTuple1 arg
  else arg.

(** [NonLinearProgram.__init__], lines 2-76, called with keyword arguments:
    the attributes of the new object, or [None] when a keyword is not a
    parameter (a [TypeError]). *)
Definition NonLinearProgram_init (kwargs : gmap string Obj) : option (gmap string Obj) :=
  if bool_decide (map_Forall (fun name _ => name ∈ nlp_parameters.*1) kwargs)
  then Some (list_to_map
               (List.map (fun '(name, dflt) =>
                            (name, stored_value name (bound_argument kwargs name dflt)))
                         nlp_parameters))
  else None.

(** The mutable containers, by object identity, and [l.append(v)] on the
    list [o]. *)
Definition contents (o : Obj) (store : gmap nat (list Obj)) : option (list Obj) :=
  match o with
  | ORef a => store !! a
  | _ => None
  end.

Definition list_append (o v : Obj) (store : gmap nat (list Obj))
    : option (gmap nat (list Obj)) :=
  match o with
  | ORef a =>
      match store !! a with
      | Some l => Some (<[a := l ++ [v]]> store)
      | None => None
      end
  | _ => None
  end.

(** The object [NonLinearProgram] builds from the keyword arguments
    [kwargs], when it builds one. *)
Definition built_nlp (kwargs : gmap string Obj) : gmap string Obj :=
  default ∅ (NonLinearProgram_init kwargs).

(** * Properties *)

(** ** The constructor *)

Lemma forallb_false_iff {A} (f : A -> bool) (l : list A) :
  forallb f l = false <-> exists x, x ∈ l /\ f x = false.
Proof.
  induction l as [|a l IH]; simpl.
  - split; [discriminate | intros (x & Hx & _); inversion Hx].
  - rewrite andb_false_iff, IH. split.
    + intros [Ha | (x & Hx & Hf)].
      * exists a. split; [constructor | exact Ha].
      * exists x. split; [by constructor | exact Hf].
    + intros (x & Hx & Hf). inversion Hx; subst; [by left | right; eauto].
Qed.

Lemma check_nodes_spec (nodes : list PyVal) :
  check_nodes nodes =
  if forallb marker_or_int nodes then Ok tt else Raise InvalidNodeSpecifier.
Proof.
  induction nodes as [|node rest IH]; cbn [check_nodes forallb]; [reflexivity|].
  unfold marker_or_int at 1, is_marker.
  destruct (py_in node _); cbn [negb orb andb]; [exact IH|].
  destruct (isinstance_int node); cbn [negb orb andb]; [exact IH | reflexivity].
Qed.

Lemma check_nodes_phase_spec (nodes_phase : list PyVal) :
  check_nodes_phase nodes_phase =
  if forallb isinstance_int nodes_phase then Ok tt else Raise InvalidPhaseIndex.
Proof.
  induction nodes_phase as [|phase rest IH]; simpl; [reflexivity|].
  destruct (isinstance_int phase); simpl; [exact IH | reflexivity].
Qed.

(** What [__init__] returns once the parent constructor has returned. *)
Lemma init_after_super_spec nodes nodes_phase mn mx w (self : PenaltyOption) :
  init_after_super nodes nodes_phase mn mx w (Ok self) =
  if negb (forallb marker_or_int nodes) then Raise InvalidNodeSpecifier
  else if negb (forallb isinstance_int nodes_phase) then Raise InvalidPhaseIndex
  else if negb (bool_decide (length nodes = length nodes_phase)) then Raise ArityMismatch
  else Ok {| parent := self; min_bound := mn; max_bound := mx;
             bounds := {| interpolation := CONSTANT |};
             multinode_constraint := true; weight := w; quadratic := true;
             nodes_phase := nodes_phase; nodes := nodes; node := MULTINODES;
             dt := 1; node_idx := [0]; penalty_type := INTERNAL |}.
Proof.
  unfold init_after_super.
  rewrite check_nodes_spec, check_nodes_phase_spec.
  destruct (forallb marker_or_int nodes); simpl; [|reflexivity].
  destruct (forallb isinstance_int nodes_phase); simpl; reflexivity.
Qed.

(** C4, as the code has it: once the parent constructor has accepted its
    arguments, [__init__] raises a [ValueError] if and only if some node is
    neither one of the four markers nor an [int] (of either sign), or some
    phase index is not an [int], or [len(nodes) != len(nodes_phase)]; in
    every other case construction succeeds. *)
Theorem init_raises_ValueError_iff (parent_init : ParentInit)
    (nodes nodes_phase : list PyVal) (mc cf : PyVal) (mn mx w : Q)
    (params : gmap string PyVal) :
  is_ok (super_call parent_init mc cf params) = true ->
  (raises_ValueError (__init__ parent_init nodes nodes_phase mc cf mn mx w params)
     <-> rejected marker_or_int nodes nodes_phase) /\
  (~ rejected marker_or_int nodes nodes_phase ->
     is_ok (__init__ parent_init nodes nodes_phase mc cf mn mx w params) = true).
Proof.
  intros Hsuper. unfold __init__.
  destruct (super_call parent_init mc cf params) as [self|e]; [|discriminate].
  rewrite init_after_super_spec. unfold rejected.
  destruct (forallb marker_or_int nodes) eqn:Hn; simpl.
  2:{ apply forallb_false_iff in Hn. split.
      - split; [intros _; by left|].
        intros _. exists InvalidNodeSpecifier. by split.
      - intros Hno. exfalso. apply Hno. by left. }
  destruct (forallb isinstance_int nodes_phase) eqn:Hp; simpl.
  2:{ apply forallb_false_iff in Hp. split.
      - split; [intros _; right; by left|].
        intros _. exists InvalidPhaseIndex. by split.
      - intros Hno. exfalso. apply Hno. right. by left. }
  assert (Hn' : ~ exists node, node ∈ nodes /\ marker_or_int node = false).
  { intros H. apply forallb_false_iff in H. congruence. }
  assert (Hp' : ~ exists phase, phase ∈ nodes_phase /\ isinstance_int phase = false).
  { intros H. apply forallb_false_iff in H. congruence. }
  case_bool_decide as Hlen; simpl.
  - split; [|reflexivity]. split.
    + intros (e & He & _). discriminate.
    + intros [H | [H | H]]; contradiction.
  - split.
    + split; [intros _; right; by right|].
      intros _. exists ArityMismatch. by split.
    + intros Hno. exfalso. apply Hno. right. by right.
Qed.

(** A run of C4's theorem: two nodes, two phases, a parent constructor that
    accepts. *)
Lemma init_raises_ValueError_iff_witness :
  (raises_ValueError
     (__init__ recording_parent [VNode END; VNode START] [VInt 0; VInt 1]
        (VFcn STATES_EQUALITY) VNone 0 0 0 ∅)
     <-> rejected marker_or_int [VNode END; VNode START] [VInt 0; VInt 1]) /\
  (~ rejected marker_or_int [VNode END; VNode START] [VInt 0; VInt 1] ->
     is_ok (__init__ recording_parent [VNode END; VNode START] [VInt 0; VInt 1]
              (VFcn STATES_EQUALITY) VNone 0 0 0 ∅) = true).
Proof.
  apply (init_raises_ValueError_iff recording_parent
           [VNode END; VNode START] [VInt 0; VInt 1]
           (VFcn STATES_EQUALITY) VNone 0 0 0 ∅).
  reflexivity.
Defined.

(** C4, as stated, fails: the node [-1] is neither a marker nor a
    non-negative integer, yet [__init__] returns an object. *)
Lemma init_accepts_negative_node :
  rejected marker_or_non_negative_int [VInt (-1); VNode END] [VInt 0; VInt 1] /\
  is_ok (__init__ recording_parent [VInt (-1); VNode END] [VInt 0; VInt 1]
           (VFcn STATES_EQUALITY) VNone 0 0 0 ∅) = true.
Proof.
  split; [|reflexivity].
  left. exists (VInt (-1)). split; [constructor | reflexivity].
Qed.

(** C9: when the key ["force_multinode"] is present in [params], whatever
    its value, [multinode_constraint] and [custom_function] reach the parent
    constructor as given (no rewrapping as [CUSTOM], even for an argument
    that is not a [MultinodeConstraintFcn]) and the forwarded parameters are
    [params] without that key. *)
Theorem force_multinode_key_bypasses_custom (parent_init : ParentInit)
    (nodes nodes_phase : list PyVal) (mc cf : PyVal) (mn mx w : Q)
    (params : gmap string PyVal) (v : PyVal) :
  params !! "force_multinode" = Some v ->
  super_call_args mc cf params = (mc, cf, delete "force_multinode" params) /\
  (delete "force_multinode" params : gmap string PyVal) !! "force_multinode" = None /\
  __init__ parent_init nodes nodes_phase mc cf mn mx w params =
    init_after_super nodes nodes_phase mn mx w
      (parent_init mc cf (delete "force_multinode" params)).
Proof.
  intros Hkey.
  assert (Hargs : super_call_args mc cf params
                  = (mc, cf, delete "force_multinode" params)).
  { unfold super_call_args, dict_contains. rewrite Hkey.
    by rewrite andb_false_r. }
  split; [exact Hargs|]. split; [apply lookup_delete_eq|].
  unfold __init__, super_call. by rewrite Hargs.
Qed.

(** A run of C9's theorem: the key is bound to [False] and the argument is
    a bare callable. *)
Lemma force_multinode_key_bypasses_custom_witness :
  super_call_args (VCallable 7) VNone
    (<["force_multinode" := VBool false]> (<["phase" := VInt 0]> ∅))
  = (VCallable 7, VNone,
     delete "force_multinode"
       (<["force_multinode" := VBool false]> (<["phase" := VInt 0]> ∅))) /\
  (delete "force_multinode"
     (<["force_multinode" := VBool false]> (<["phase" := VInt 0]> ∅))
     : gmap string PyVal) !! "force_multinode" = None /\
  __init__ recording_parent [VNode END; VNode START] [VInt 0; VInt 1]
    (VCallable 7) VNone 0 0 0
    (<["force_multinode" := VBool false]> (<["phase" := VInt 0]> ∅))
  = init_after_super [VNode END; VNode START] [VInt 0; VInt 1] 0 0 0
      (recording_parent (VCallable 7) VNone
         (delete "force_multinode"
            (<["force_multinode" := VBool false]> (<["phase" := VInt 0]> ∅)))).
Proof.
  apply (force_multinode_key_bypasses_custom recording_parent
           [VNode END; VNode START] [VInt 0; VInt 1] (VCallable 7) VNone 0 0 0
           (<["force_multinode" := VBool false]> (<["phase" := VInt 0]> ∅))
           (VBool false)).
  reflexivity.
Defined.

(** ** Slot allocation *)

Lemma scan_empty_first (g : list Slot) (i : Z) (k : nat) :
  g !! k = Some EmptySlot ->
  (forall j : nat, (j < k)%nat -> g !! j <> Some EmptySlot) ->
  scan_empty i g = Some (i + Z.of_nat k).
Proof.
  revert i k. induction g as [|s g IH]; intros i k Hk Hfirst.
  - by rewrite lookup_nil in Hk.
  - destruct k as [|k]; simpl in *.
    + injection Hk as ->. simpl. f_equal. lia.
    + destruct s; simpl.
      * exfalso. apply (Hfirst 0%nat); [lia | reflexivity].
      * rewrite (IH (i + 1) k Hk).
        -- f_equal. lia.
        -- intros j Hj. apply (Hfirst (S j)). lia.
Qed.

Lemma scan_empty_none (g : list Slot) (i : Z) :
  (forall j : nat, g !! j <> Some EmptySlot) -> scan_empty i g = None.
Proof.
  revert i. induction g as [|s g IH]; intros i Hnone; [reflexivity|].
  simpl. destruct s; simpl.
  - exfalso. by apply (Hnone 0%nat).
  - apply IH. intros j. apply (Hnone (S j)).
Qed.

(** The [while] loop appends the missing empty slots and stops. *)
Lemma grow_pool_spec (i : Z) (g : list Slot) :
  grow_pool i g = g ++ replicate (Z.to_nat (i + 1 - Z.of_nat (length g))) EmptySlot.
Proof.
  funelim (grow_pool i g).
  - rewrite H, length_app, <- app_assoc. f_equal. simpl.
    match goal with |- _ = replicate ?n _ => destruct n eqn:E end; [lia|].
    simpl. f_equal. f_equal. lia.
  - match goal with |- _ = _ ++ replicate ?n _ => replace n with 0%nat by lia end.
    simpl. by rewrite app_nil_r.
Qed.

(** [ensure_penalty_sanity] is [allocate_slot] on the selected pool; the
    other pools and [n_phases] are left as they were. *)
Lemma ensure_penalty_sanity_frame self ocp nlp :
  link_after self ocp nlp = (allocate_slot self (pool_before self ocp nlp)).1 /\
  pool_after self ocp nlp = (allocate_slot self (pool_before self ocp nlp)).2 /\
  (forall name, name <> selected_pool self nlp ->
     pool_of name (ensure_penalty_sanity self ocp nlp).1.2
                  (ensure_penalty_sanity self ocp nlp).2
     = pool_of name ocp nlp).
Proof.
  unfold link_after, pool_after, pool_before, ensure_penalty_sanity, selected_pool.
  destruct (Qeq_bool (weight self) 0), nlp as [n|]; simpl;
    match goal with |- context [allocate_slot ?s ?g] =>
      destruct (allocate_slot s g) as [self' g'] end; simpl;
    (split; [reflexivity|]); (split; [reflexivity|]);
    intros []; simpl; congruence.
Qed.

(** C2: for a constraint without a slot ([list_index < 0]),
    [ensure_penalty_sanity] claims the first empty slot of the pool and
    appends nothing; when no slot of the pool is empty it appends exactly
    one empty slot and claims that last index. *)
Theorem allocation_claims_first_empty_slot
    (self : MultinodeConstraint) (ocp : Ocp) (nlp : option Nlp) :
  list_index (parent self) < 0 ->
  (forall k : nat,
     pool_before self ocp nlp !! k = Some EmptySlot ->
     (forall j : nat, (j < k)%nat -> pool_before self ocp nlp !! j <> Some EmptySlot) ->
     list_index (parent (link_after self ocp nlp)) = Z.of_nat k /\
     pool_after self ocp nlp = pool_before self ocp nlp) /\
  ((forall j : nat, pool_before self ocp nlp !! j <> Some EmptySlot) ->
     pool_after self ocp nlp = pool_before self ocp nlp ++ [EmptySlot] /\
     list_index (parent (link_after self ocp nlp))
       = Z.of_nat (length (pool_before self ocp nlp))).
Proof.
  intros Hneg.
  destruct (ensure_penalty_sanity_frame self ocp nlp) as (-> & -> & _).
  unfold allocate_slot.
  apply Z.ltb_lt in Hneg. rewrite Hneg. split.
  - intros k Hk Hfirst.
    rewrite (scan_empty_first _ 0 k Hk Hfirst). simpl. split; [lia | reflexivity].
  - intros Hnone. rewrite (scan_empty_none _ 0 Hnone). simpl.
    split; [reflexivity|]. rewrite length_app. simpl. lia.
Qed.

(** A run of C2's theorem: a constraint pool whose slots 0 and 1 are taken
    and whose slot 2 is empty. *)
Lemma allocation_claims_first_empty_slot_witness :
  list_index (parent (link_after (example_link (-1) 0 [VInt 0; VInt 1])
     (example_ocp [PenaltySlot 4; PenaltySlot 5; EmptySlot; EmptySlot] []) None)) = 2 /\
  pool_after (example_link (-1) 0 [VInt 0; VInt 1])
     (example_ocp [PenaltySlot 4; PenaltySlot 5; EmptySlot; EmptySlot] []) None
  = [PenaltySlot 4; PenaltySlot 5; EmptySlot; EmptySlot].
Proof.
  refine (proj1 (allocation_claims_first_empty_slot
            (example_link (-1) 0 [VInt 0; VInt 1])
            (example_ocp [PenaltySlot 4; PenaltySlot 5; EmptySlot; EmptySlot] [])
            None _) 2%nat _ _).
  - reflexivity.
  - reflexivity.
  - intros [|[|j]] Hj; [discriminate | discriminate | lia].
Defined.

(** C3: for a constraint that has a slot ([list_index >= 0]),
    [ensure_penalty_sanity] leaves the constraint (hence its slot index) as
    it was; afterwards the pool has at least [list_index + 1] entries, the
    entry at [list_index] is empty, every other slot that existed before
    holds what it held, and the pools that were not selected are
    untouched. *)
Theorem reallocation_keeps_index_and_siblings
    (self : MultinodeConstraint) (ocp : Ocp) (nlp : option Nlp) :
  0 <= list_index (parent self) ->
  link_after self ocp nlp = self /\
  (Z.to_nat (list_index (parent self)) + 1 <= length (pool_after self ocp nlp))%nat /\
  pool_after self ocp nlp !! Z.to_nat (list_index (parent self)) = Some EmptySlot /\
  (forall j : nat,
     (j < length (pool_before self ocp nlp))%nat ->
     j <> Z.to_nat (list_index (parent self)) ->
     pool_after self ocp nlp !! j = pool_before self ocp nlp !! j) /\
  (forall name, name <> selected_pool self nlp ->
     pool_of name (ensure_penalty_sanity self ocp nlp).1.2
                  (ensure_penalty_sanity self ocp nlp).2
     = pool_of name ocp nlp).
Proof.
  intros Hpos.
  destruct (ensure_penalty_sanity_frame self ocp nlp) as (-> & -> & Hframe).
  unfold allocate_slot.
  assert (Hltb : (list_index (parent self) <? 0) = false) by (apply Z.ltb_ge; lia).
  rewrite Hltb. simpl. rewrite grow_pool_spec.
  set (g := pool_before self ocp nlp).
  set (i := list_index (parent self)) in *.
  assert (Hlen : (Z.to_nat i <
                  length (g ++ replicate (Z.to_nat (i + 1 - Z.of_nat (length g))) EmptySlot))%nat).
  { rewrite length_app, length_replicate. lia. }
  split; [reflexivity|]. split; [rewrite length_insert; lia|].
  split; [by apply list_lookup_insert_eq|].
  split; [|exact Hframe].
  intros j Hj Hne.
  rewrite list_lookup_insert_ne by congruence.
  by apply lookup_app_l.
Qed.

(** A run of C3's theorem: a constraint holding slot 1 of a pool of three. *)
Lemma reallocation_keeps_index_and_siblings_witness :
  link_after (example_link 1 0 [VInt 0; VInt 1])
    (example_ocp [PenaltySlot 4; PenaltySlot 5; PenaltySlot 6] []) None
  = example_link 1 0 [VInt 0; VInt 1].
Proof.
  refine (proj1 (reallocation_keeps_index_and_siblings
            (example_link 1 0 [VInt 0; VInt 1])
            (example_ocp [PenaltySlot 4; PenaltySlot 5; PenaltySlot 6] [])
            None _)).
  simpl. lia.
Defined.

(** ** Preparation of the list *)

Lemma for_fold_app {S A B} (l1 l2 : list A) (acc : B) (body : B -> A -> M S B) (s : S) :
  for_fold (l1 ++ l2) acc body s =
  match for_fold l1 acc body s with
  | (s1, Ok acc1) => for_fold l2 acc1 body s1
  | (s1, Raise e) => (s1, Raise e)
  end.
Proof.
  revert acc s. induction l1 as [|x l1 IH]; intros acc s; simpl; [reflexivity|].
  unfold bind. destruct (body acc x s) as [s1 [acc1|e]]; [apply IH | reflexivity].
Qed.

Lemma forallb_first_false {A} (f : A -> bool) (l : list A) :
  forallb f l = false ->
  exists pre x suf, l = pre ++ x :: suf /\ forallb f pre = true /\ f x = false.
Proof.
  induction l as [|a l IH]; simpl; [discriminate|].
  destruct (f a) eqn:Ha; simpl.
  - intros (pre & x & suf & -> & Hpre & Hx)%IH.
    exists (a :: pre), x, suf. simpl. by rewrite Ha.
  - intros _. by exists [], a, l.
Qed.

(** The inner loop, on integer phases: it raises exactly when some phase is
    out of range, and leaves the objects alone. *)
Lemma check_phases_spec (w : World) (mnc : nat) :
  integer_phases w mnc ->
  check_phases mnc w =
  (w, if phases_in_range w mnc then Ok tt else Raise InvalidPhaseReference).
Proof.
  unfold integer_phases, phases_in_range, check_phases, bind, get.
  generalize (nodes_phase (mnc_store w mnc)) as phases.
  induction phases as [|phase rest IH]; simpl; [reflexivity|].
  intros [Hint Hrest]%andb_prop.
  unfold bind at 1, lift, phase_out_of_range, in_range.
  destruct phase; simpl in Hint; try discriminate; simpl.
  - destruct (Z.ltb_spec (Z.b2z b) 0), (Z.geb_spec (Z.b2z b) (n_phases (world_ocp w)));
      simpl; unfold raise, bind, ret;
      destruct (Z.leb_spec 0 (Z.b2z b)), (Z.ltb_spec (Z.b2z b) (n_phases (world_ocp w)));
      simpl; try lia; try reflexivity.
    apply IH, Hrest.
  - destruct (Z.ltb_spec z 0), (Z.geb_spec z (n_phases (world_ocp w)));
      simpl; unfold raise, bind, ret;
      destruct (Z.leb_spec 0 z), (Z.ltb_spec z (n_phases (world_ocp w)));
      simpl; try lia; try reflexivity.
    apply IH, Hrest.
Qed.

Lemma phases_in_range_false (w : World) (mnc : nat) :
  integer_phases w mnc ->
  phases_in_range w mnc = false <-> references_invalid_phase w mnc.
Proof.
  unfold integer_phases, phases_in_range, references_invalid_phase.
  intros Hint. rewrite forallb_false_iff. split.
  - intros (phase & Hin & Hout).
    assert (Hi : isinstance_int phase = true).
    { rewrite forallb_forall in Hint. by apply Hint, list_elem_of_In. }
    unfold in_range in Hout.
    destruct (int_value phase) as [z|] eqn:Hz.
    + exists phase, z. split; [exact Hin|]. split; [exact Hz|].
      apply andb_false_iff in Hout as [H%Z.leb_gt | H%Z.ltb_ge]; lia.
    + destruct phase; discriminate.
  - intros (phase & z & Hin & Hz & Hout).
    exists phase. split; [exact Hin|]. unfold in_range. rewrite Hz.
    apply andb_false_iff. destruct Hout; [left; apply Z.leb_gt | right; apply Z.ltb_ge]; lia.
Qed.

Lemma prepare_one_spec (full : list nat) (mnc : nat) (w : World) :
  integer_phases w mnc ->
  prepare_one full mnc w =
  if phases_in_range w mnc
  then (mark_one mnc w, Ok (full ++ [mnc]))
  else (w, Raise InvalidPhaseReference).
Proof.
  intros Hint. unfold prepare_one, bind at 1.
  rewrite (check_phases_spec w mnc Hint).
  destruct (phases_in_range w mnc); [|reflexivity].
  unfold bind, get, mark_one.
  destruct (truthy (weight (mnc_store w mnc))); reflexivity.
Qed.

Lemma mark_one_frame (mnc : nat) (w : World) :
  world_ocp (mark_one mnc w) = world_ocp w /\
  world_nlp (mark_one mnc w) = world_nlp w /\
  (forall r, nodes_phase (mnc_store (mark_one mnc w) r) = nodes_phase (mnc_store w r)) /\
  (forall r, weight (mnc_store (mark_one mnc w) r) = weight (mnc_store w r)) /\
  (forall r, mnc_store (mark_one mnc w) r = marked [mnc] (mnc_store w) r).
Proof.
  unfold mark_one, marked.
  destruct (truthy (weight (mnc_store w mnc))) eqn:Hw; simpl;
    (split; [reflexivity|]); (split; [reflexivity|]).
  - split; [|split]; intros r; case_bool_decide as Hr; try reflexivity.
    + subst r. rewrite bool_decide_true by apply list_elem_of_singleton, eq_refl.
      by rewrite Hw.
    + rewrite bool_decide_false; [reflexivity|].
      by rewrite list_elem_of_singleton.
  - split; [|split]; intros r; try reflexivity.
    case_bool_decide as Hr; [|reflexivity].
    apply list_elem_of_singleton in Hr. subst r. by rewrite Hw.
Qed.

Lemma marked_cons (a : nat) (rest : list nat) (st st1 : nat -> MultinodeConstraint) (r : nat) :
  (forall r, st1 r = marked [a] st r) ->
  marked rest st1 r = marked (a :: rest) st r.
Proof.
  intros H1. unfold marked in *. rewrite !H1.
  assert (Ha : forall x, bool_decide (x ∈ [a]) = bool_decide (x = a)).
  { intros x. apply bool_decide_ext, list_elem_of_singleton. }
  assert (Hc : bool_decide (r ∈ a :: rest)
               = bool_decide (r = a) || bool_decide (r ∈ rest)).
  { destruct (decide (r = a)) as [Heq|Hne].
    - rewrite (bool_decide_true (r = a)) by done.
      rewrite bool_decide_true; [done | rewrite Heq; constructor].
    - rewrite (bool_decide_false (r = a)) by done. simpl.
      apply bool_decide_ext. rewrite elem_of_cons. tauto. }
  rewrite Ha, Hc.
  destruct (bool_decide (r = a)), (bool_decide (r ∈ rest)),
    (truthy (weight (st r))) eqn:Hw; simpl; rewrite ?Hw; reflexivity.
Qed.

(** The loop over constraints that all pass the range check. *)
Lemma prepare_loop_ok (self acc : list nat) (w : World) :
  (forall mnc, mnc ∈ self -> integer_phases w mnc /\ phases_in_range w mnc = true) ->
  exists w',
    for_fold self acc prepare_one w = (w', Ok (acc ++ self)) /\
    (forall r, mnc_store w' r = marked self (mnc_store w) r) /\
    world_ocp w' = world_ocp w /\ world_nlp w' = world_nlp w.
Proof.
  revert acc w. induction self as [|a rest IH]; intros acc w Hall.
  - exists w. simpl. unfold ret. rewrite app_nil_r.
    split; [reflexivity|]. split; [|by split].
    intros r. unfold marked.
    rewrite bool_decide_false; [reflexivity | apply not_elem_of_nil].
  - destruct (Hall a) as [Hint Hok]; [by constructor|].
    simpl. unfold bind. rewrite (prepare_one_spec acc a w Hint), Hok.
    destruct (mark_one_frame a w) as (Hocp & Hnlp & Hph & Hwt & Hst).
    destruct (IH (acc ++ [a]) (mark_one a w)) as (w' & Hrun & Hst' & Hocp' & Hnlp').
    { intros mnc Hin. destruct (Hall mnc) as [Hi Hr]; [by constructor|].
      unfold integer_phases, phases_in_range in *. by rewrite Hph, Hocp. }
    exists w'. rewrite Hrun, <- app_assoc. simpl.
    split; [reflexivity|]. split; [|split; congruence].
    intros r. rewrite Hst'. by apply marked_cons.
Qed.

(** The loop up to the first constraint that fails the range check. *)
Lemma prepare_loop_raise (pre suf acc : list nat) (bad : nat) (w : World) :
  (forall mnc, mnc ∈ pre -> integer_phases w mnc /\ phases_in_range w mnc = true) ->
  integer_phases w bad -> phases_in_range w bad = false ->
  exists w',
    for_fold (pre ++ bad :: suf) acc prepare_one w = (w', Raise InvalidPhaseReference) /\
    (forall r, mnc_store w' r = marked pre (mnc_store w) r) /\
    world_ocp w' = world_ocp w /\ world_nlp w' = world_nlp w.
Proof.
  intros Hpre Hint Hbad.
  destruct (prepare_loop_ok pre acc w Hpre) as (w1 & Hrun & Hst & Hocp & Hnlp).
  exists w1. rewrite for_fold_app, Hrun. simpl. unfold bind.
  assert (Hph : nodes_phase (mnc_store w1 bad) = nodes_phase (mnc_store w bad)).
  { rewrite Hst. unfold marked. by destruct (_ && _). }
  rewrite prepare_one_spec.
  - unfold phases_in_range in *. rewrite Hph, Hocp, Hbad. done.
  - unfold integer_phases in *. by rewrite Hph.
Qed.

(** C5: on constraints whose phase indices are integers (the invariant of
    [__init__]), [prepare_multinode_constraints] raises the range-check
    error if and only if some constraint of the list references a phase
    outside [[0, n_phases)]; when none does, it returns the constraints in
    insertion order, every constraint of nonzero weight has its [base] set
    to [MayerFunction] (and nothing else is changed on any object); in all
    cases the program, its phases and their pools are left as they were. *)
Theorem prepare_raises_iff_invalid_phase (self : list nat) (w : World) :
  (forall mnc, mnc ∈ self -> integer_phases w mnc) ->
  ((prepare_multinode_constraints self w).2 = Raise InvalidPhaseReference
     <-> exists mnc, mnc ∈ self /\ references_invalid_phase w mnc) /\
  ((~ exists mnc, mnc ∈ self /\ references_invalid_phase w mnc) ->
     (prepare_multinode_constraints self w).2 = Ok self /\
     (forall mnc, mnc ∈ self -> truthy (weight (mnc_store w mnc)) = true ->
        base (parent (mnc_store (prepare_multinode_constraints self w).1 mnc))
          = MayerFunction) /\
     (forall r, mnc_store (prepare_multinode_constraints self w).1 r
                = marked self (mnc_store w) r)) /\
  world_ocp (prepare_multinode_constraints self w).1 = world_ocp w /\
  world_nlp (prepare_multinode_constraints self w).1 = world_nlp w.
Proof.
  intros Hint. unfold prepare_multinode_constraints.
  destruct (forallb (phases_in_range w) self) eqn:Hall.
  - assert (Hgood : forall mnc, mnc ∈ self ->
                integer_phases w mnc /\ phases_in_range w mnc = true).
    { intros mnc Hin. split; [by apply Hint|].
      rewrite forallb_forall in Hall. by apply Hall, list_elem_of_In. }
    assert (Hnone : ~ exists mnc, mnc ∈ self /\ references_invalid_phase w mnc).
    { intros (mnc & Hin & Hbad). destruct (Hgood mnc Hin) as [Hi Hr].
      apply (phases_in_range_false w mnc Hi) in Hbad. congruence. }
    destruct (prepare_loop_ok self [] w Hgood) as (w' & Hrun & Hst & Hocp & Hnlp).
    rewrite Hrun. simpl. split; [|split; [|by split]].
    + split; [discriminate | contradiction].
    + intros _. split; [reflexivity|]. split; [|exact Hst].
      intros mnc Hin Hw. rewrite Hst. unfold marked.
      rewrite bool_decide_true by exact Hin. by rewrite Hw.
  - destruct (forallb_first_false _ _ Hall) as (pre & bad & suf & -> & Hpre & Hbad).
    assert (Hgood : forall mnc, mnc ∈ pre ->
                integer_phases w mnc /\ phases_in_range w mnc = true).
    { intros mnc Hin. split.
      - apply Hint. apply elem_of_app. by left.
      - rewrite forallb_forall in Hpre. by apply Hpre, list_elem_of_In. }
    assert (Hbi : integer_phases w bad).
    { apply Hint. apply elem_of_app. right. constructor. }
    assert (Hsome : exists mnc, mnc ∈ pre ++ bad :: suf /\ references_invalid_phase w mnc).
    { exists bad. split; [apply elem_of_app; right; constructor|].
      by apply phases_in_range_false. }
    destruct (prepare_loop_raise pre suf [] bad w Hgood Hbi Hbad)
      as (w' & Hrun & Hst & Hocp & Hnlp).
    rewrite Hrun. simpl. split; [|split; [|by split]].
    + by split.
    + intros Hnone. contradiction.
Qed.

(** A run of C5's theorem on a list whose second constraint references
    phase 5 of a two-phase program. *)
Lemma prepare_raises_iff_invalid_phase_witness :
  (prepare_multinode_constraints [0%nat; 1%nat] example_world).2
    = Raise InvalidPhaseReference
  <-> exists mnc, mnc ∈ [0%nat; 1%nat] /\ references_invalid_phase example_world mnc.
Proof.
  refine (proj1 (prepare_raises_iff_invalid_phase [0%nat; 1%nat] example_world _)).
  intros [|mnc] _; reflexivity.
Defined.

(** C10: [prepare_multinode_constraints] is not atomic.  When the
    constraints of [pre] pass the range check and the next constraint [bad]
    references a phase outside [[0, n_phases)], the call raises the
    range-check error, and the objects are left as the loop had them when it
    raised: every constraint of [pre] with a nonzero weight has its [base]
    set to [MayerFunction]. *)
Theorem prepare_not_atomic (pre suf : list nat) (bad : nat) (w : World) :
  (forall mnc, mnc ∈ pre ->
     integer_phases w mnc /\ ~ references_invalid_phase w mnc) ->
  integer_phases w bad ->
  references_invalid_phase w bad ->
  (prepare_multinode_constraints (pre ++ bad :: suf) w).2
    = Raise InvalidPhaseReference /\
  (forall mnc, mnc ∈ pre -> truthy (weight (mnc_store w mnc)) = true ->
     base (parent (mnc_store
       (prepare_multinode_constraints (pre ++ bad :: suf) w).1 mnc))
     = MayerFunction) /\
  (forall r, mnc_store (prepare_multinode_constraints (pre ++ bad :: suf) w).1 r
             = marked pre (mnc_store w) r).
Proof.
  intros Hpre Hbi Hbad. unfold prepare_multinode_constraints.
  assert (Hgood : forall mnc, mnc ∈ pre ->
              integer_phases w mnc /\ phases_in_range w mnc = true).
  { intros mnc Hin. destruct (Hpre mnc Hin) as [Hi Hno]. split; [exact Hi|].
    destruct (phases_in_range w mnc) eqn:Hr; [reflexivity|].
    exfalso. by apply Hno, phases_in_range_false. }
  apply (phases_in_range_false w bad Hbi) in Hbad.
  destruct (prepare_loop_raise pre suf [] bad w Hgood Hbi Hbad)
    as (w' & Hrun & Hst & _).
  rewrite Hrun. simpl. split; [reflexivity|]. split; [|exact Hst].
  intros mnc Hin Hw. rewrite Hst. unfold marked.
  rewrite bool_decide_true by exact Hin. by rewrite Hw.
Qed.

(** A run of C10's theorem: the first constraint (weight 1) is marked
    although the call raises on the second one; its [base] was
    [ConstraintFunction] before the call. *)
Lemma prepare_not_atomic_witness :
  base (parent (mnc_store example_world 0%nat)) = ConstraintFunction /\
  (prepare_multinode_constraints ([0%nat] ++ 1%nat :: []) example_world).2
    = Raise InvalidPhaseReference /\
  base (parent (mnc_store
    (prepare_multinode_constraints ([0%nat] ++ 1%nat :: []) example_world).1 0%nat))
  = MayerFunction.
Proof.
  split; [reflexivity|].
  assert (H : forall mnc, mnc ∈ [0%nat] ->
            integer_phases example_world mnc /\
            ~ references_invalid_phase example_world mnc).
  { intros mnc ->%list_elem_of_singleton. split; [reflexivity|].
    intros (phase & z & Hin & Hz & Hout). simpl in Hin.
    apply elem_of_cons in Hin as [-> | Hin].
    - injection Hz as <-. simpl in Hout. lia.
    - apply list_elem_of_singleton in Hin as ->.
      injection Hz as <-. simpl in Hout. lia. }
  assert (Hbad : references_invalid_phase example_world 1%nat).
  { exists (VInt 5), 5. split; [|split; [reflexivity | right; simpl; lia]].
    simpl. apply elem_of_cons. right. constructor. }
  destruct (prepare_not_atomic [0%nat] [] 1%nat example_world H eq_refl Hbad)
    as (Hraise & Hmark & _).
  split; [exact Hraise|].
  apply Hmark; [constructor | reflexivity].
Defined.

(** ** Occurrence indices *)

Section ControllerFacts.
Context {R : Type}.

Lemma py_sum_count (p : Z) (l : list Z) :
  py_sum (List.map (fun i => bool_decide (i = p)) l)
  = Z.of_nat (length (filter (fun i => i = p) l)).
Proof.
  unfold py_sum.
  assert (G : forall acc,
    fold_left (fun a b => a + Z.b2z b) (List.map (fun i => bool_decide (i = p)) l) acc
    = acc + Z.of_nat (length (filter (fun i => i = p) l))).
  { induction l as [|x l IH]; intros acc; simpl; [lia|].
    rewrite IH, filter_cons. case_bool_decide as Hx.
    - rewrite decide_True by exact Hx. simpl. lia.
    - rewrite decide_False by exact Hx. simpl. lia. }
  rewrite G. lia.
Qed.

Lemma filter_map_length (f : nat -> Z) (p : Z) (l : list nat) :
  length (filter (fun i => i = p) (List.map f l))
  = length (filter (fun c => f c = p) l).
Proof.
  induction l as [|x l IH]; simpl; [reflexivity|].
  rewrite !filter_cons. destruct (decide (f x = p)); simpl; by rewrite IH.
Qed.

(** One turn of the loop of lines 458-460. *)
Lemma prepare_loop_cons (c : nat) (rest : list nat) (ex : list Z) (h : Heap R) :
  prepare_loop (c :: rest) ex h =
  prepare_loop rest (ex ++ [phase_idx (h c)])
    (fun r => if bool_decide (r = c)
              then set_cx_index_to_get (h r)
                     (py_sum (List.map (fun i => bool_decide (i = phase_idx (h c))) ex))
              else h r).
Proof.
  unfold prepare_loop. simpl. unfold bind, get, assign_cx_index_to_get, modify, ret.
  simpl. by rewrite bool_decide_true.
Qed.

(** The loop never raises; it changes nothing but [cx_index_to_get], and
    only on the controllers it visits. *)
Lemma prepare_loop_frame (l : list nat) (ex : list Z) (h : Heap R) :
  exists h',
    prepare_loop l ex h = (h', Ok (ex ++ List.map (fun c => phase_idx (h c)) l)) /\
    (forall r, phase_idx (h' r) = phase_idx (h r) /\
               states (h' r) = states (h r) /\
               controls (h' r) = controls (h r) /\
               parameters (h' r) = parameters (h r)) /\
    (forall r, r ∉ l -> h' r = h r).
Proof.
  revert ex h. induction l as [|c rest IH]; intros ex h.
  - exists h. unfold prepare_loop. simpl. unfold ret. by rewrite app_nil_r.
  - rewrite prepare_loop_cons.
    set (h1 := fun r => if bool_decide (r = c) then _ else h r).
    assert (Hh1 : forall r, phase_idx (h1 r) = phase_idx (h r) /\
                            states (h1 r) = states (h r) /\
                            controls (h1 r) = controls (h r) /\
                            parameters (h1 r) = parameters (h r)).
    { intros r. unfold h1. by case_bool_decide. }
    destruct (IH (ex ++ [phase_idx (h c)]) h1) as (h' & Hrun & Hsame & Hout).
    exists h'. rewrite Hrun. split; [|split].
    + f_equal. f_equal. rewrite <- app_assoc. simpl. f_equal. f_equal.
      apply map_ext. intros r. apply Hh1.
    + intros r. destruct (Hsame r) as (-> & -> & -> & ->). apply Hh1.
    + intros r Hr. apply not_elem_of_cons in Hr as [Hne Hr].
      rewrite (Hout r Hr). unfold h1. by rewrite bool_decide_false.
Qed.

(** The occurrence index the loop leaves on the controller it visits
    last. *)
Lemma prepare_loop_last (l : list nat) (c : nat) (ex : list Z) (h : Heap R) :
  cx_index_to_get ((prepare_loop (l ++ [c]) ex h).1 c)
  = py_sum (List.map (fun i => bool_decide (i = phase_idx (h c)))
                     (ex ++ List.map (fun c' => phase_idx (h c')) l)).
Proof.
  unfold prepare_loop. rewrite for_fold_app. fold (prepare_loop l ex h).
  destruct (prepare_loop_frame l ex h) as (h1 & -> & Hsame & _).
  fold (prepare_loop [c] (ex ++ List.map (fun c' => phase_idx (h c')) l) h1).
  rewrite prepare_loop_cons. unfold prepare_loop. simpl. unfold ret. simpl.
  rewrite bool_decide_true by reflexivity. simpl.
  by destruct (Hsame c) as (-> & _).
Qed.

Lemma prepare_controller_cx_returns (controllers : list nat) (h : Heap R) :
  _prepare_controller_cx controllers h = (prepared controllers h, Ok tt) /\
  prepared controllers h = (prepare_loop controllers [] h).1.
Proof.
  unfold prepared, _prepare_controller_cx, bind.
  destruct (prepare_loop_frame controllers [] h) as (h' & -> & _). by split.
Qed.

End ControllerFacts.

(** C8: when [_prepare_controller_cx] has walked the controllers up to
    position [i], the occurrence index of the controller [c] at that
    position is the number of controllers at earlier positions that share
    its phase index; this is also its value when the call returns, provided
    the same object is not listed again after position [i]. *)
Theorem occurrence_index_counts_prior_same_phase {R : Type}
    (controllers : list nat) (h : Heap R) (i c : nat) :
  controllers !! i = Some c ->
  cx_index_to_get (prepared (take (S i) controllers) h c)
    = occurrences_before h controllers i c /\
  (c ∉ drop (S i) controllers ->
   cx_index_to_get (prepared controllers h c)
     = occurrences_before h controllers i c).
Proof.
  intros Hi.
  assert (Hfirst : cx_index_to_get (prepared (take (S i) controllers) h c)
                   = occurrences_before h controllers i c).
  { rewrite (proj2 (prepare_controller_cx_returns _ h)).
    rewrite (take_S_r _ _ _ Hi), prepare_loop_last. simpl.
    rewrite py_sum_count, filter_map_length. reflexivity. }
  split; [exact Hfirst|].
  intros Hlater. rewrite <- Hfirst.
  rewrite !(proj2 (prepare_controller_cx_returns _ h)).
  rewrite <- (take_drop (S i) controllers) at 1.
  unfold prepare_loop. rewrite for_fold_app.
  fold (prepare_loop (take (S i) controllers) [] h).
  destruct (prepare_loop_frame (take (S i) controllers) [] h) as (h1 & -> & _).
  simpl.
  match goal with |- context [for_fold _ ?ex _ h1] =>
    fold (prepare_loop (drop (S i) controllers) ex h1);
    destruct (prepare_loop_frame (drop (S i) controllers) ex h1) as (h2 & -> & _ & Hout)
  end.
  simpl. by rewrite (Hout c Hlater).
Qed.

(** A run of C8's theorem: two controllers of phase 2 get the indices 0 and
    1; controllers of phases 0 and 1 both get the index 0. *)
Lemma occurrence_index_counts_prior_same_phase_witness :
  (cx_index_to_get (prepared [0%nat; 1%nat] same_phase_heap 0%nat) = 0 /\
   cx_index_to_get (prepared [0%nat; 1%nat] same_phase_heap 1%nat) = 1) /\
  (cx_index_to_get (prepared [0%nat; 1%nat] two_phase_heap 0%nat) = 0 /\
   cx_index_to_get (prepared [0%nat; 1%nat] two_phase_heap 1%nat) = 0).
Proof.
  assert (Hfree0 : 0%nat ∉ drop 1 [0%nat; 1%nat]).
  { simpl. intros H%list_elem_of_singleton. discriminate. }
  assert (Hfree1 : 1%nat ∉ drop 2 [0%nat; 1%nat]).
  { simpl. apply not_elem_of_nil. }
  split; split.
  - exact (proj2 (occurrence_index_counts_prior_same_phase
                    [0%nat; 1%nat] same_phase_heap 0 0 eq_refl) Hfree0).
  - exact (proj2 (occurrence_index_counts_prior_same_phase
                    [0%nat; 1%nat] same_phase_heap 1 1 eq_refl) Hfree1).
  - exact (proj2 (occurrence_index_counts_prior_same_phase
                    [0%nat; 1%nat] two_phase_heap 0 0 eq_refl) Hfree0).
  - exact (proj2 (occurrence_index_counts_prior_same_phase
                    [0%nat; 1%nat] two_phase_heap 1 1 eq_refl) Hfree1).
Defined.

(** ** State, control and duration equality *)

Section EqualityFacts.
Context {R : Type} {scalar : Scalar R}.

Lemma states_cx_spec (ctrl : nat) (key : string) (h : Heap R) :
  states_cx ctrl key h =
  (h, match read_states h ctrl key with
      | Some v => Ok v
      | None => Raise UnknownKey
      end).
Proof.
  unfold states_cx, read_states, bind, get.
  by destruct (states (h ctrl) (cx_index_to_get (h ctrl)) key).
Qed.

Lemma controls_cx_spec (ctrl : nat) (key : string) (h : Heap R) :
  controls_cx ctrl key h =
  (h, match read_controls h ctrl key with
      | Some v => Ok v
      | None => Raise UnknownKey
      end).
Proof.
  unfold controls_cx, read_controls, bind, get.
  by destruct (controls (h ctrl) (cx_index_to_get (h ctrl)) key).
Qed.

Lemma vadd_zeros_vsub_diag (v : CX R) :
  (forall x : R, ssub x x = szero) -> sadd szero szero = szero ->
  vadd (zeros (shape v)) (vsub v v) = zeros (shape v).
Proof.
  intros Hdiag Hzero. unfold vadd, vsub, zeros, shape. simpl.
  rewrite Nat.mul_1_r.
  induction v as [|x v IH]; simpl; [reflexivity|].
  by rewrite Hdiag, Hzero, IH.
Qed.

Lemma equality_loop_zero read f v0 body (rest : list nat) (h : Heap R) :
  equality_body read f v0 body ->
  (forall x : R, ssub x x = szero) -> sadd szero szero = szero ->
  (forall c, c ∈ rest -> exists x, read h c = Some x /\ f x = v0) ->
  for_fold rest (zeros (shape v0)) body h = (h, Ok (zeros (shape v0))).
Proof.
  intros Hbody Hdiag Hzero. induction rest as [|c rest IH]; intros Hall.
  - reflexivity.
  - simpl. unfold bind. rewrite Hbody.
    destruct (Hall c) as (x & -> & ->); [constructor|].
    rewrite bool_decide_true by reflexivity. simpl.
    rewrite (vadd_zeros_vsub_diag _ Hdiag Hzero).
    apply IH. intros c' Hc'. apply Hall. by constructor.
Qed.

Lemma equality_loop_mismatch read f v0 body (rest : list nat) (out : CX R) (h : Heap R) :
  equality_body read f v0 body ->
  (forall c, c ∈ rest -> is_Some (read h c)) ->
  (exists c x, c ∈ rest /\ read h c = Some x /\ shape v0 <> shape (f x)) ->
  for_fold rest out body h = (h, Raise ShapeMismatch).
Proof.
  intros Hbody. revert out. induction rest as [|c rest IH]; intros out Hall Hbad.
  - destruct Hbad as (c & x & Hin & _). inversion Hin.
  - simpl. unfold bind. rewrite Hbody.
    destruct (Hall c) as [x Hx]; [constructor|]. rewrite Hx.
    case_bool_decide as Hshape; simpl; [|reflexivity].
    apply IH.
    + intros c' Hc'. apply Hall. by constructor.
    + destruct Hbad as (c' & x' & Hin & Hx' & Hne).
      apply elem_of_cons in Hin as [-> | Hin].
      * rewrite Hx in Hx'. injection Hx' as <-. contradiction.
      * by exists c', x'.
Qed.

Lemma states_body (m : BiMapping R) (key : string) (v0 : CX R) :
  equality_body (fun h c => read_states h c key) (mapping_map (to_first m)) v0
    (fun out ctrl_i =>
       cx_i <- states_cx ctrl_i key ;;
       let states_i := mapping_map (to_first m) cx_i in
       if negb (bool_decide (shape v0 = shape states_i))
       then raise ShapeMismatch
       else ret (vadd out (vsub v0 states_i))).
Proof.
  intros out c h. unfold bind. rewrite states_cx_spec.
  destruct (read_states h c key) as [x|]; [|reflexivity].
  simpl. by destruct (negb _).
Qed.

Lemma controls_body (key : string) (v0 : CX R) :
  equality_body (fun h c => read_controls h c key) (fun x => x) v0
    (fun out ctrl_i =>
       controls_i <- controls_cx ctrl_i key ;;
       if negb (bool_decide (shape v0 = shape controls_i))
       then raise ShapeMismatch
       else ret (vadd out (vsub v0 controls_i))).
Proof.
  intros out c h. unfold bind. rewrite controls_cx_spec.
  destruct (read_controls h c key) as [x|]; [|reflexivity].
  by destruct (negb _).
Qed.

(** [states_equality] and [controls_equality] up to their loops. *)
Lemma states_equality_unfold (m : BiMapping R) (c0 : nat) (rest : list nat)
    (key : string) (h : Heap R) (x0 : CX R) :
  read_states (prepared (c0 :: rest) h) c0 key = Some x0 ->
  states_equality m (c0 :: rest) key h =
  for_fold rest (zeros (shape (mapping_map (to_second m) x0)))
    (fun out ctrl_i =>
       cx_i <- states_cx ctrl_i key ;;
       let states_i := mapping_map (to_first m) cx_i in
       if negb (bool_decide (shape (mapping_map (to_second m) x0) = shape states_i))
       then raise ShapeMismatch
       else ret (vadd out (vsub (mapping_map (to_second m) x0) states_i)))
    (prepared (c0 :: rest) h).
Proof.
  intros H0. unfold states_equality, bind at 1.
  rewrite (proj1 (prepare_controller_cx_returns (c0 :: rest) h)).
  unfold bind at 1, lift, first_controller. unfold bind at 1.
  by rewrite states_cx_spec, H0.
Qed.

Lemma controls_equality_unfold (c0 : nat) (rest : list nat)
    (key : string) (h : Heap R) (x0 : CX R) :
  read_controls (prepared (c0 :: rest) h) c0 key = Some x0 ->
  controls_equality (c0 :: rest) key h =
  for_fold rest (zeros (shape x0))
    (fun out ctrl_i =>
       controls_i <- controls_cx ctrl_i key ;;
       if negb (bool_decide (shape x0 = shape controls_i))
       then raise ShapeMismatch
       else ret (vadd out (vsub x0 controls_i)))
    (prepared (c0 :: rest) h).
Proof.
  intros H0. unfold controls_equality, bind at 1.
  rewrite (proj1 (prepare_controller_cx_returns (c0 :: rest) h)).
  unfold bind at 1, lift, first_controller. unfold bind at 1.
  by rewrite controls_cx_spec, H0.
Qed.

End EqualityFacts.

(** C6: in an arithmetic where [x - x = 0] and [0 + 0 = 0], for any number
    of controllers after the first, when the mapped states of each of them
    ([to_first] of its states) equal the mapped states of the first one
    ([to_second] of its states), vectors being read once the occurrence
    indices are set, [states_equality] returns the zero vector of that
    shape. *)
Theorem states_equality_zero_on_equal_states {R : Type} {scalar : Scalar R}
    (m : BiMapping R) (c0 : nat) (rest : list nat) (key : string)
    (h : Heap R) (x0 : CX R) :
  (forall x : R, ssub x x = szero) ->
  sadd szero szero = szero ->
  read_states (prepared (c0 :: rest) h) c0 key = Some x0 ->
  (forall c, c ∈ rest ->
     exists x, read_states (prepared (c0 :: rest) h) c key = Some x /\
               mapping_map (to_first m) x = mapping_map (to_second m) x0) ->
  states_equality m (c0 :: rest) key h
  = (prepared (c0 :: rest) h,
     Ok (replicate (length (mapping_map (to_second m) x0)) szero)).
Proof.
  intros Hdiag Hzero H0 Hall.
  rewrite (states_equality_unfold m c0 rest key h x0 H0).
  rewrite (equality_loop_zero (fun h c => read_states h c key)
             (mapping_map (to_first m)) (mapping_map (to_second m) x0) _ rest _
             (states_body m key _) Hdiag Hzero Hall).
  unfold zeros, shape. simpl. by rewrite Nat.mul_1_r.
Qed.

(** A run of C6's theorem over the integers: three controllers that share
    the states [[4; 7]]. *)
Lemma states_equality_zero_on_equal_states_witness :
  states_equality identity_mapping [0%nat; 1%nat; 2%nat] "all" continuity_heap
  = (prepared [0%nat; 1%nat; 2%nat] continuity_heap, Ok [0; 0]).
Proof.
  refine (states_equality_zero_on_equal_states identity_mapping
            0%nat [1%nat; 2%nat] "all" continuity_heap [4; 7] _ _ _ _).
  - intros x. apply Z.sub_diag.
  - reflexivity.
  - reflexivity.
  - intros c Hc. exists [4; 7].
    apply elem_of_cons in Hc as [-> | ->%list_elem_of_singleton];
      split; reflexivity.
Defined.

(** C7: [states_equality] raises the shape-mismatch error whenever the
    mapped states of some controller after the first ([to_first] of its
    states) differ in shape from the mapped states of the first one
    ([to_second] of its states); [controls_equality] does so whenever the
    controls of some controller after the first differ in shape from the
    controls of the first one, no mapping being applied.  Every controller
    is assumed to have the variable [key]. *)
Theorem shape_mismatch_raises {R : Type} {scalar : Scalar R}
    (m : BiMapping R) (c0 : nat) (rest : list nat) (key : string)
    (h : Heap R) (x0 u0 : CX R) :
  (read_states (prepared (c0 :: rest) h) c0 key = Some x0 ->
   (forall c, c ∈ rest -> is_Some (read_states (prepared (c0 :: rest) h) c key)) ->
   (exists c x, c ∈ rest /\
      read_states (prepared (c0 :: rest) h) c key = Some x /\
      shape (mapping_map (to_second m) x0) <> shape (mapping_map (to_first m) x)) ->
   (states_equality m (c0 :: rest) key h).2 = Raise ShapeMismatch) /\
  (read_controls (prepared (c0 :: rest) h) c0 key = Some u0 ->
   (forall c, c ∈ rest -> is_Some (read_controls (prepared (c0 :: rest) h) c key)) ->
   (exists c u, c ∈ rest /\
      read_controls (prepared (c0 :: rest) h) c key = Some u /\
      shape u0 <> shape u) ->
   (controls_equality (c0 :: rest) key h).2 = Raise ShapeMismatch).
Proof.
  split.
  - intros H0 Hall Hbad.
    rewrite (states_equality_unfold m c0 rest key h x0 H0).
    by rewrite (equality_loop_mismatch (fun h c => read_states h c key)
                  (mapping_map (to_first m)) (mapping_map (to_second m) x0) _ rest _ _
                  (states_body m key _) Hall Hbad).
  - intros H0 Hall Hbad.
    rewrite (controls_equality_unfold c0 rest key h u0 H0).
    by rewrite (equality_loop_mismatch (fun h c => read_controls h c key)
                  (fun x => x) u0 _ rest _ _ (controls_body key _) Hall Hbad).
Qed.

(** A run of C7's theorem: states of two entries against mapped states of
    three, and controls of one entry against controls of two. *)
Lemma shape_mismatch_raises_witness :
  (states_equality padding_mapping [0%nat; 1%nat] "all" continuity_heap).2
    = Raise ShapeMismatch /\
  (controls_equality [0%nat; 1%nat] "all" continuity_heap).2
    = Raise ShapeMismatch.
Proof.
  destruct (shape_mismatch_raises padding_mapping 0%nat [1%nat] "all"
              continuity_heap [4; 7] [0]) as [Hstates Hcontrols].
  split.
  - apply Hstates.
    + reflexivity.
    + intros c ->%list_elem_of_singleton. by exists [4; 7].
    + exists 1%nat, [4; 7]. split; [constructor|]. split; [reflexivity|].
      discriminate.
  - apply Hcontrols.
    + reflexivity.
    + intros c ->%list_elem_of_singleton. by exists [0; 0].
    + exists 1%nat, [0; 0]. split; [constructor|]. split; [reflexivity|].
      discriminate.
Defined.

(** ** Duration equality *)

(** The search of lines 403-406 answers [phase_idx], not the position of
    the entry it has met. *)
Lemma find_time_idx_spec {R : Type} (cx : list (string * R)) (phase_idx : Z)
    (time_idx : option Z) :
  find_time_idx cx phase_idx time_idx =
  match located_time cx phase_idx with
  | Some _ => Some phase_idx
  | None => time_idx
  end.
Proof.
  unfold located_time. revert time_idx.
  induction cx as [|entry rest IH]; intros time_idx; simpl; [reflexivity|].
  rewrite IH. case_bool_decide; simpl; [|reflexivity].
  by destruct (List.find _ rest).
Qed.

(** What [time_equality] returns when both names are found: the difference
    of the entries at positions [pre.phase_idx] and [post.phase_idx]. *)
Lemma time_equality_reads_positions {R : Type} {scalar : Scalar R}
    (pre post : nat) (h : Heap R) (a b : R) :
  located_time (parameters (h pre)) (phase_idx (h pre)) = Some a ->
  located_time (parameters (h post)) (phase_idx (h post)) = Some b ->
  (time_equality [pre; post] h).2 =
  match casadi_getitem (parameters (h pre)) (phase_idx (h pre)),
        casadi_getitem (parameters (h post)) (phase_idx (h post)) with
  | Ok time_pre, Ok time_post => Ok (ssub (snd time_pre) (snd time_post))
  | Raise e, _ => Raise e
  | Ok _, Raise e => Raise e
  end.
Proof.
  intros Ha Hb. unfold time_equality, bind at 1.
  rewrite (proj1 (prepare_controller_cx_returns [pre; post] h)).
  rewrite (proj2 (prepare_controller_cx_returns [pre; post] h)).
  destruct (prepare_loop_frame [pre; post] [] h) as (h' & -> & Hsame & _).
  unfold bind, lift, unpack_pair, get. simpl.
  destruct (Hsame pre) as (-> & _ & _ & ->).
  destruct (Hsame post) as (-> & _ & _ & ->).
  rewrite !find_time_idx_spec, Ha, Hb.
  destruct (casadi_getitem (parameters (h pre)) (phase_idx (h pre))); [|reflexivity].
  by destruct (casadi_getitem (parameters (h post)) (phase_idx (h post))).
Qed.

(** A missing name on either controller raises the matching error. *)
Lemma time_equality_missing {R : Type} {scalar : Scalar R}
    (pre post : nat) (h : Heap R) :
  (located_time (parameters (h pre)) (phase_idx (h pre)) = None ->
   (time_equality [pre; post] h).2 = Raise (MissingTimeParameter false)) /\
  (is_Some (located_time (parameters (h pre)) (phase_idx (h pre))) ->
   located_time (parameters (h post)) (phase_idx (h post)) = None ->
   (time_equality [pre; post] h).2 = Raise (MissingTimeParameter true)).
Proof.
  assert (G : (time_equality [pre; post] h).2 =
    match located_time (parameters (h pre)) (phase_idx (h pre)) with
    | None => Raise (MissingTimeParameter false)
    | Some _ =>
        match located_time (parameters (h post)) (phase_idx (h post)) with
        | None => Raise (MissingTimeParameter true)
        | Some _ =>
            match casadi_getitem (parameters (h pre)) (phase_idx (h pre)),
                  casadi_getitem (parameters (h post)) (phase_idx (h post)) with
            | Ok time_pre, Ok time_post => Ok (ssub (snd time_pre) (snd time_post))
            | Raise e, _ => Raise e
            | Ok _, Raise e => Raise e
            end
        end
    end).
  { destruct (located_time (parameters (h pre)) (phase_idx (h pre))) as [a|] eqn:Ha.
    - destruct (located_time (parameters (h post)) (phase_idx (h post))) as [b|] eqn:Hb.
      + by apply (time_equality_reads_positions pre post h a b).
      + unfold time_equality, bind at 1.
        rewrite (proj1 (prepare_controller_cx_returns [pre; post] h)).
        rewrite (proj2 (prepare_controller_cx_returns [pre; post] h)).
        destruct (prepare_loop_frame [pre; post] [] h) as (h' & -> & Hsame & _).
        unfold bind, lift, unpack_pair, get. simpl.
        destruct (Hsame pre) as (-> & _ & _ & ->).
        destruct (Hsame post) as (-> & _ & _ & ->).
        by rewrite !find_time_idx_spec, Ha, Hb.
    - unfold time_equality, bind at 1.
      rewrite (proj1 (prepare_controller_cx_returns [pre; post] h)).
      rewrite (proj2 (prepare_controller_cx_returns [pre; post] h)).
      destruct (prepare_loop_frame [pre; post] [] h) as (h' & -> & Hsame & _).
      unfold bind, lift, unpack_pair, get. simpl.
      destruct (Hsame pre) as (-> & _ & _ & ->).
      by rewrite !find_time_idx_spec, Ha. }
  rewrite G. split.
  - by intros ->.
  - intros [a ->] ->. reflexivity.
Qed.

(** C1 fails on the code: in a program whose parameters are the durations
    of phases 1, 2 and 3, the entries named ["time_phase_1"] and
    ["time_phase_2"] both hold 3, yet [time_equality] on controllers of
    phases 1 and 2 returns [-5]: it subtracts the entries at positions 1 and
    2, which are the durations of phases 2 and 3. *)
Theorem time_equality_reads_wrong_entries :
  located_time time_parameters (phase_idx (time_heap 0%nat)) = Some 3 /\
  located_time time_parameters (phase_idx (time_heap 1%nat)) = Some 3 /\
  (time_equality [0%nat; 1%nat] time_heap).2 = Ok (-5).
Proof. repeat split; reflexivity. Qed.

(** * Further properties *)

(** ** The constructor and [add] *)

(** X1: whatever the arguments, the parameters forwarded to the parent
    constructor never hold the key ["force_multinode"], and hold every
    other key of [params] with its value. *)
Theorem forwarded_params_drop_only_force_multinode
    (mc cf : PyVal) (params : gmap string PyVal) :
  (super_call_args mc cf params).2 !! "force_multinode" = None /\
  (forall k, k <> "force_multinode" ->
     (super_call_args mc cf params).2 !! k = params !! k).
Proof.
  unfold super_call_args, dict_contains.
  destruct (params !! "force_multinode") as [v|] eqn:Hkey.
  - rewrite andb_false_r. simpl. split; [apply lookup_delete_eq|].
    intros k Hk. by apply lookup_delete_ne.
  - rewrite andb_true_r.
    destruct (negb (isinstance_MultinodeConstraintFcn mc)); simpl; by split.
Qed.

(** X2: when [params] has no key ["force_multinode"], the parent
    constructor always receives a [MultinodeConstraintFcn] as penalty: a
    tag is forwarded as given together with the caller's
    [custom_function]; anything else is forwarded as [custom_function],
    under the tag [CUSTOM], and the caller's [custom_function] is dropped. *)
Theorem without_key_parent_receives_a_tag
    (mc cf : PyVal) (params : gmap string PyVal) :
  params !! "force_multinode" = None ->
  isinstance_MultinodeConstraintFcn (super_call_args mc cf params).1.1 = true /\
  (isinstance_MultinodeConstraintFcn mc = true ->
     super_call_args mc cf params = (mc, cf, params)) /\
  (isinstance_MultinodeConstraintFcn mc = false ->
     super_call_args mc cf params = (VFcn CUSTOM, mc, params)).
Proof.
  intros Hkey. unfold super_call_args, dict_contains. rewrite Hkey, andb_true_r.
  destruct (isinstance_MultinodeConstraintFcn mc) eqn:Hmc; simpl;
    (split; [done|]); split; intros; done.
Qed.

(** A run of X2's theorem: a bare callable next to a [custom_function]. *)
Lemma without_key_parent_receives_a_tag_witness :
  super_call_args (VCallable 7) (VCallable 8) (<["phase" := VInt 0]> ∅)
  = (VFcn CUSTOM, VCallable 7, <["phase" := VInt 0]> ∅).
Proof.
  refine (proj2 (proj2 (without_key_parent_receives_a_tag
            (VCallable 7) (VCallable 8) (<["phase" := VInt 0]> ∅) _)) _);
    reflexivity.
Defined.

(** X3: an object [__init__] returns keeps the sequences it was given,
    which satisfy what the loops checked: every node is a marker or an
    [int], every phase index is an [int], both have one length; its parent
    part is what the parent constructor returned for the forwarded
    arguments, and [weight], [min_bound], [max_bound] are the arguments. *)
Theorem init_establishes_invariants (parent_init : ParentInit)
    (nodes_arg nodes_phase_arg : list PyVal) (mc cf : PyVal) (mn mx w : Q)
    (params : gmap string PyVal) (self : MultinodeConstraint) :
  __init__ parent_init nodes_arg nodes_phase_arg mc cf mn mx w params = Ok self ->
  nodes self = nodes_arg /\
  nodes_phase self = nodes_phase_arg /\
  forallb marker_or_int (nodes self) = true /\
  forallb isinstance_int (nodes_phase self) = true /\
  length (nodes self) = length (nodes_phase self) /\
  super_call parent_init mc cf params = Ok (parent self) /\
  weight self = w /\ min_bound self = mn /\ max_bound self = mx.
Proof.
  unfold __init__.
  destruct (super_call parent_init mc cf params) as [p|e]; [|discriminate].
  rewrite init_after_super_spec.
  destruct (forallb marker_or_int nodes_arg) eqn:Hn; simpl; [|discriminate].
  destruct (forallb isinstance_int nodes_phase_arg) eqn:Hp; simpl; [|discriminate].
  case_bool_decide as Hlen; simpl; [|discriminate].
  intros [= <-]. simpl. repeat split; done.
Qed.

(** A run of X3's theorem. *)
Lemma init_establishes_invariants_witness :
  forallb isinstance_int
    (nodes_phase (example_link (-1) 0 [VInt 0; VInt 1])) = true.
Proof.
  refine (proj1 (proj2 (proj2 (proj2 (init_establishes_invariants
            recording_parent [VNode END; VNode START] [VInt 0; VInt 1]
            (VFcn STATES_EQUALITY) VNone 0 0 0 ∅
            (example_link (-1) 0 [VInt 0; VInt 1]) _))))).
  reflexivity.
Defined.

(** X4: the failures of [__init__] come in a fixed order.  A failure of
    the parent constructor is raised whatever the nodes and phases are; then
    a node that is neither a marker nor an [int] is reported whatever the
    phases are; then a phase index that is not an [int] is reported whatever
    the lengths are; the length check comes last. *)
Theorem init_error_precedence (parent_init : ParentInit)
    (nodes nodes_phase : list PyVal) (mc cf : PyVal) (mn mx w : Q)
    (params : gmap string PyVal) :
  (forall e, super_call parent_init mc cf params = Raise e ->
     __init__ parent_init nodes nodes_phase mc cf mn mx w params = Raise e) /\
  (is_ok (super_call parent_init mc cf params) = true ->
   (exists node, node ∈ nodes /\ marker_or_int node = false) ->
   __init__ parent_init nodes nodes_phase mc cf mn mx w params
     = Raise InvalidNodeSpecifier) /\
  (is_ok (super_call parent_init mc cf params) = true ->
   forallb marker_or_int nodes = true ->
   (exists phase, phase ∈ nodes_phase /\ isinstance_int phase = false) ->
   __init__ parent_init nodes nodes_phase mc cf mn mx w params
     = Raise InvalidPhaseIndex) /\
  (is_ok (super_call parent_init mc cf params) = true ->
   forallb marker_or_int nodes = true ->
   forallb isinstance_int nodes_phase = true ->
   length nodes <> length nodes_phase ->
   __init__ parent_init nodes nodes_phase mc cf mn mx w params
     = Raise ArityMismatch).
Proof.
  unfold __init__.
  destruct (super_call parent_init mc cf params) as [p|e0].
  - rewrite init_after_super_spec. split; [discriminate|]. split; [|split].
    + intros _ Hbad%forallb_false_iff. by rewrite Hbad.
    + intros _ -> Hbad%forallb_false_iff. by rewrite Hbad.
    + intros _ -> -> Hlen. simpl. by rewrite bool_decide_false.
  - split; [by intros e [= ->]|]. repeat split; discriminate.
Qed.

(** A run of X4's theorem: a refusing parent constructor hides an invalid
    node, and an invalid node hides an invalid phase and a length
    mismatch. *)
Lemma init_error_precedence_witness :
  __init__ refusing_parent [VStr "first"] [VNone; VNone]
    (VFcn STATES_EQUALITY) VNone 0 0 0 ∅ = Raise (ParentFailure TypeError) /\
  __init__ recording_parent [VStr "first"] [VNone; VNone]
    (VFcn STATES_EQUALITY) VNone 0 0 0 ∅ = Raise InvalidNodeSpecifier.
Proof.
  split.
  - refine (proj1 (init_error_precedence refusing_parent [VStr "first"]
              [VNone; VNone] (VFcn STATES_EQUALITY) VNone 0 0 0 ∅) _ _).
    reflexivity.
  - refine (proj1 (proj2 (init_error_precedence recording_parent [VStr "first"]
              [VNone; VNone] (VFcn STATES_EQUALITY) VNone 0 0 0 ∅)) _ _).
    + reflexivity.
    + exists (VStr "first"). split; [constructor | reflexivity].
Defined.

(** X5: a call of [_add] that [add] issues always carries a
    [MultinodeConstraintFcn] and the phase [-1].  A tag is forwarded with
    the extra arguments as given; anything else is forwarded under the key
    ["custom_function"] (replacing a value the caller gave for that key)
    with the tag [CUSTOM] and the other extra arguments as given.
    Consequently the constructor never rewraps what [add] forwards. *)
Theorem add_forwards_a_tag (mc : PyVal) (extra : gmap string PyVal) (call : AddCall) :
  add mc extra = inr call ->
  isinstance_MultinodeConstraintFcn (add_multinode_constraint call) = true /\
  add_phase call = -1 /\
  (isinstance_MultinodeConstraintFcn mc = true ->
     add_multinode_constraint call = mc /\ add_extra_arguments call = extra) /\
  (isinstance_MultinodeConstraintFcn mc = false ->
     add_multinode_constraint call = VFcn CUSTOM /\
     add_extra_arguments call !! "custom_function" = Some mc /\
     forall k, k <> "custom_function" ->
       add_extra_arguments call !! k = extra !! k) /\
  (forall cf params,
     (super_call_args (add_multinode_constraint call) cf params).1
     = (add_multinode_constraint call, cf)).
Proof.
  unfold add.
  destruct (isinstance_MultinodeConstraintFcn mc) eqn:Hmc; simpl;
    match goal with |- context [if ?b then _ else _] => destruct b end;
    try discriminate; intros [= <-]; simpl.
  - split; [exact Hmc|]. split; [reflexivity|]. split; [done|]. split; [done|].
    intros cf params. unfold super_call_args. rewrite Hmc. simpl.
    by destruct (dict_contains "force_multinode" params).
  - split; [reflexivity|]. split; [reflexivity|]. split; [done|]. split.
    + intros _. split; [reflexivity|]. split; [apply lookup_insert_eq|].
      intros k Hk. by apply lookup_insert_ne.
    + intros cf params. unfold super_call_args. simpl.
      by destruct (dict_contains "force_multinode" params).
Qed.

(** A run of X5's theorem: a bare callable replaces the [custom_function]
    the caller gave. *)
Lemma add_forwards_a_tag_witness :
  add_extra_arguments
    {| add_multinode_constraint := VFcn CUSTOM; add_phase := -1;
       add_extra_arguments :=
         <["custom_function" := VCallable 7]>
           (<["custom_function" := VCallable 8]> ∅) |}
    !! "custom_function" = Some (VCallable 7).
Proof.
  refine (proj1 (proj2 (proj1 (proj2 (proj2 (proj2 (add_forwards_a_tag
            (VCallable 7) (<["custom_function" := VCallable 8]> ∅) _ _))))
            _))); reflexivity.
Defined.

(** X6: [add] always registers with the phase [-1]: extra arguments that
    name [phase] (or [option_type]) collide with the keywords of the call
    of [_add], and the call is refused. *)
Theorem add_refuses_phase (mc v : PyVal) (extra : gmap string PyVal) :
  extra !! "phase" = Some v \/ extra !! "option_type" = Some v ->
  add mc extra = inl MultipleValues.
Proof.
  intros Hkey. unfold add.
  destruct (negb (isinstance_MultinodeConstraintFcn mc)); simpl;
    unfold dict_contains;
    rewrite ?lookup_insert_ne by discriminate;
    destruct Hkey as [-> | ->]; simpl; by rewrite ?orb_true_r.
Qed.

(** A run of X6's theorem. *)
Lemma add_refuses_phase_witness :
  add (VFcn STATES_EQUALITY) (<["phase" := VInt 0]> ∅) = inl MultipleValues.
Proof.
  refine (add_refuses_phase (VFcn STATES_EQUALITY) (VInt 0)
            (<["phase" := VInt 0]> ∅) _).
  left. reflexivity.
Defined.

(** ** Pools *)

Lemma scan_empty_found (g : list Slot) (i r : Z) :
  scan_empty i g = Some r ->
  exists k : nat, r = i + Z.of_nat k /\ g !! k = Some EmptySlot.
Proof.
  revert i. induction g as [|s g IH]; intros i; simpl; [discriminate|].
  destruct s; simpl.
  - intros [= <-]. exists 0%nat. split; [lia | reflexivity].
  - intros (k & -> & Hk)%IH. exists (S k). split; [lia | exact Hk].
Qed.

Lemma scan_empty_not_found (g : list Slot) (i : Z) :
  scan_empty i g = None -> forall j : nat, g !! j <> Some EmptySlot.
Proof.
  revert i. induction g as [|s g IH]; intros i; simpl.
  - intros _ j. by rewrite lookup_nil.
  - destruct s; simpl; [discriminate|].
    intros Hnone [|j]; simpl; [discriminate | by apply (IH (i + 1))].
Qed.

Lemma set_list_index_same (self : MultinodeConstraint) :
  set_list_index self (list_index (parent self)) = self.
Proof. by destruct self as [[] ]. Qed.

(** What lines 124-135 leave, whatever the slot index was. *)
Lemma allocate_slot_ready (self : MultinodeConstraint) (g : list Slot) :
  (allocate_slot self g).1
    = set_list_index self (list_index (parent (allocate_slot self g).1)) /\
  0 <= list_index (parent (allocate_slot self g).1) /\
  (Z.to_nat (list_index (parent (allocate_slot self g).1))
     < length (allocate_slot self g).2)%nat /\
  (allocate_slot self g).2
    !! Z.to_nat (list_index (parent (allocate_slot self g).1)) = Some EmptySlot /\
  (length g <= length (allocate_slot self g).2)%nat /\
  (forall j : nat, (j < length g)%nat ->
     j <> Z.to_nat (list_index (parent (allocate_slot self g).1)) ->
     (allocate_slot self g).2 !! j = g !! j) /\
  (list_index (parent self) < 0 ->
     (forall (j : nat) s, g !! j = Some s -> (allocate_slot self g).2 !! j = Some s) /\
     forall id, g !! Z.to_nat (list_index (parent (allocate_slot self g).1))
                <> Some (PenaltySlot id)).
Proof.
  unfold allocate_slot.
  destruct (Z.ltb_spec (list_index (parent self)) 0) as [Hneg|Hpos].
  - destruct (scan_empty 0 g) as [r|] eqn:Hscan.
    + apply scan_empty_found in Hscan as (k & -> & Hk). simpl.
      replace (Z.to_nat (0 + Z.of_nat k)) with k by lia.
      split; [reflexivity|]. split; [lia|].
      split; [by apply lookup_lt_Some in Hk|]. split; [exact Hk|].
      split; [lia|]. split; [done|]. intros _. split; [done|].
      intros id. by rewrite Hk.
    + pose proof (scan_empty_not_found g 0 Hscan) as Hnone. simpl.
      rewrite length_app. simpl.
      replace (Z.to_nat (Z.of_nat (length g + 1) - 1)) with (length g) by lia.
      split; [reflexivity|]. split; [lia|]. split; [lia|].
      split; [by rewrite lookup_app_r, Nat.sub_diag by lia|].
      split; [lia|]. split; [intros j Hj _; by apply lookup_app_l|].
      intros _. split.
      * intros j s Hj. rewrite lookup_app_l; [exact Hj|].
        by apply lookup_lt_Some in Hj.
      * intros id. by rewrite lookup_ge_None_2 by lia.
  - simpl. rewrite grow_pool_spec.
    set (i := list_index (parent self)) in *.
    assert (Hlen : (Z.to_nat i <
              length (g ++ replicate (Z.to_nat (i + 1 - Z.of_nat (length g))) EmptySlot))%nat).
    { rewrite length_app, length_replicate. lia. }
    split; [symmetry; apply set_list_index_same|]. split; [lia|].
    split; [by rewrite length_insert|].
    split; [by apply list_lookup_insert_eq|].
    split; [rewrite length_insert, length_app; lia|].
    split; [|lia].
    intros j Hj Hne. rewrite list_lookup_insert_ne by congruence.
    by apply lookup_app_l.
Qed.

Lemma allocate_slot_idempotent (self : MultinodeConstraint) (g : list Slot) :
  allocate_slot (allocate_slot self g).1 (allocate_slot self g).2
  = allocate_slot self g.
Proof.
  destruct (allocate_slot_ready self g) as (_ & Hpos & Hlt & Hempty & _).
  destruct (allocate_slot self g) as [self' g']. simpl in *.
  unfold allocate_slot.
  assert (Hltb : (list_index (parent self') <? 0) = false) by (apply Z.ltb_ge; lia).
  rewrite Hltb, grow_pool_spec.
  replace (Z.to_nat (list_index (parent self') + 1 - Z.of_nat (length g')))
    with 0%nat by lia.
  simpl. rewrite app_nil_r. f_equal. by apply list_insert_id.
Qed.

(** X7: whatever slot index the constraint had, after
    [ensure_penalty_sanity] its index is a position of the selected pool,
    that position is empty, the pool has not shrunk, every other entry the
    pool had is in place, and the constraint differs from the one given by
    its slot index at most. *)
Theorem ensure_penalty_sanity_slot_ready
    (self : MultinodeConstraint) (ocp : Ocp) (nlp : option Nlp) :
  0 <= list_index (parent (link_after self ocp nlp)) /\
  (Z.to_nat (list_index (parent (link_after self ocp nlp)))
     < length (pool_after self ocp nlp))%nat /\
  pool_after self ocp nlp
    !! Z.to_nat (list_index (parent (link_after self ocp nlp))) = Some EmptySlot /\
  (length (pool_before self ocp nlp) <= length (pool_after self ocp nlp))%nat /\
  (forall j : nat, (j < length (pool_before self ocp nlp))%nat ->
     j <> Z.to_nat (list_index (parent (link_after self ocp nlp))) ->
     pool_after self ocp nlp !! j = pool_before self ocp nlp !! j) /\
  link_after self ocp nlp
    = set_list_index self (list_index (parent (link_after self ocp nlp))).
Proof.
  destruct (ensure_penalty_sanity_frame self ocp nlp) as (-> & -> & _).
  destruct (allocate_slot_ready self (pool_before self ocp nlp))
    as (H1 & H2 & H3 & H4 & H5 & H6 & _).
  repeat split; assumption.
Qed.

(** X8: for a constraint without a slot, [ensure_penalty_sanity] keeps
    every entry of the pool where it was, and the index it claims is not
    the position of a penalty. *)
Theorem fresh_allocation_spares_penalties
    (self : MultinodeConstraint) (ocp : Ocp) (nlp : option Nlp) :
  list_index (parent self) < 0 ->
  (forall (j : nat) s, pool_before self ocp nlp !! j = Some s ->
     pool_after self ocp nlp !! j = Some s) /\
  (forall id,
     pool_before self ocp nlp
       !! Z.to_nat (list_index (parent (link_after self ocp nlp)))
     <> Some (PenaltySlot id)).
Proof.
  intros Hneg.
  destruct (ensure_penalty_sanity_frame self ocp nlp) as (-> & -> & _).
  destruct (allocate_slot_ready self (pool_before self ocp nlp))
    as (_ & _ & _ & _ & _ & _ & H). by apply H.
Qed.

(** A run of X8's theorem on an objective pool of two penalties. *)
Lemma fresh_allocation_spares_penalties_witness :
  pool_after (example_link (-1) 1 [VInt 0; VInt 1])
    (example_ocp [] [PenaltySlot 4; PenaltySlot 5]) None !! 1%nat
  = Some (PenaltySlot 5).
Proof.
  refine (proj1 (fresh_allocation_spares_penalties
            (example_link (-1) 1 [VInt 0; VInt 1])
            (example_ocp [] [PenaltySlot 4; PenaltySlot 5]) None _)
            1%nat (PenaltySlot 5) _).
  - simpl. lia.
  - reflexivity.
Defined.

(** X9: [ensure_penalty_sanity] is idempotent: run on what it has
    returned, it returns the same constraint, program and phase. *)
Theorem ensure_penalty_sanity_idempotent
    (self : MultinodeConstraint) (ocp : Ocp) (nlp : option Nlp) :
  ensure_penalty_sanity
    (ensure_penalty_sanity self ocp nlp).1.1
    (ensure_penalty_sanity self ocp nlp).1.2
    (ensure_penalty_sanity self ocp nlp).2
  = ensure_penalty_sanity self ocp nlp.
Proof.
  assert (Hw : forall g, weight (allocate_slot self g).1 = weight self).
  { intros g. destruct (allocate_slot_ready self g) as (-> & _). reflexivity. }
  unfold ensure_penalty_sanity.
  destruct (Qeq_bool (weight self) 0) eqn:Hq, nlp as [n|];
    match goal with |- context [allocate_slot self ?g] =>
      pose proof (allocate_slot_idempotent self g) as Hidem;
      pose proof (Hw g) as Hw';
      destruct (allocate_slot self g) as [self' g'] end;
    simpl in *; rewrite Hw', Hq, Hidem; reflexivity.
Qed.

Lemma list_setitem_in_range (pool : list Slot) (i : Z) (x : Slot) :
  0 <= i < Z.of_nat (length pool) ->
  list_setitem pool i x = Some (<[Z.to_nat i := x]> pool).
Proof.
  intros Hi. unfold list_setitem.
  destruct (Z.ltb_spec i 0); [lia|].
  destruct (Z.leb_spec 0 i); [|lia].
  destruct (Z.ltb_spec i (Z.of_nat (length pool))); [reflexivity | lia].
Qed.

Lemma list_setitem_none (pool : list Slot) (i : Z) (x : Slot) :
  list_setitem pool i x = None <->
  i < - Z.of_nat (length pool) \/ Z.of_nat (length pool) <= i.
Proof.
  unfold list_setitem.
  destruct (Z.ltb_spec i 0);
    match goal with |- context [(0 <=? ?a) && (?a <? ?b)] =>
      destruct (Z.leb_spec 0 a), (Z.ltb_spec a b) end;
    simpl; split; intros H'; try discriminate; try reflexivity; lia.
Qed.

(** The pool lines 112-115 select does not depend on what the pools hold,
    and writing it leaves the other pools alone. *)
Lemma with_pool_selected (self : MultinodeConstraint) (g : list Slot)
    (ocp : Ocp) (nlp : option Nlp) :
  pool_of (selected_pool self nlp)
    (with_pool (selected_pool self nlp) g ocp nlp).1
    (with_pool (selected_pool self nlp) g ocp nlp).2 = g /\
  (forall name, name <> selected_pool self nlp ->
     pool_of name (with_pool (selected_pool self nlp) g ocp nlp).1
                  (with_pool (selected_pool self nlp) g ocp nlp).2
     = pool_of name ocp nlp) /\
  (forall other : MultinodeConstraint,
     selected_pool other (with_pool (selected_pool self nlp) g ocp nlp).2
     = selected_pool other nlp).
Proof.
  unfold selected_pool.
  destruct (Qeq_bool (weight self) 0), nlp as [n|]; simpl;
    (split; [reflexivity|]); (split; [intros []; simpl; congruence|]);
    reflexivity.
Qed.

Lemma ensure_penalty_sanity_owner (self other : MultinodeConstraint)
    (ocp : Ocp) (nlp : option Nlp) :
  selected_pool other (ensure_penalty_sanity self ocp nlp).2
  = selected_pool other nlp.
Proof.
  unfold ensure_penalty_sanity, selected_pool.
  destruct (Qeq_bool (weight self) 0), nlp as [n|];
    match goal with |- context [allocate_slot self ?g] =>
      destruct (allocate_slot self g) as [self' g'] end; reflexivity.
Qed.

Lemma selected_pool_weight (self other : MultinodeConstraint) (nlp : option Nlp) :
  Qeq_bool (weight other) 0 = Qeq_bool (weight self) 0 ->
  selected_pool other nlp = selected_pool self nlp.
Proof. unfold selected_pool. by intros ->. Qed.

(** Registration right after allocation, in terms of the pools. *)
Lemma register_after_ensure (self_id : nat) (self : MultinodeConstraint)
    (ocp : Ocp) (nlp : option Nlp) (c : nat) (cs : list nat) :
  exists ocp' nlp',
    _add_penalty_to_pool self_id (link_after self ocp nlp)
      (ControllerSequence (c :: cs))
      (ensure_penalty_sanity self ocp nlp).1.2
      (ensure_penalty_sanity self ocp nlp).2 = inr (ocp', nlp') /\
    pool_of (selected_pool self nlp) ocp' nlp'
      = <[Z.to_nat (list_index (parent (link_after self ocp nlp)))
            := PenaltySlot self_id]> (pool_after self ocp nlp) /\
    (forall name, name <> selected_pool self nlp ->
       pool_of name ocp' nlp' = pool_of name ocp nlp) /\
    (forall other : MultinodeConstraint,
       selected_pool other nlp' = selected_pool other nlp).
Proof.
  destruct (ensure_penalty_sanity_frame self ocp nlp) as (Hlink & Hpool & Hframe).
  destruct (allocate_slot_ready self (pool_before self ocp nlp))
    as (Hself & Hpos & Hlt & _).
  rewrite <- Hlink, <- Hpool in *.
  assert (Hsel : selected_pool (link_after self ocp nlp)
                   (ensure_penalty_sanity self ocp nlp).2 = selected_pool self nlp).
  { rewrite ensure_penalty_sanity_owner. apply selected_pool_weight.
    by rewrite Hself. }
  unfold _add_penalty_to_pool. rewrite Hsel.
  fold (pool_after self ocp nlp).
  rewrite list_setitem_in_range by lia.
  set (g := <[_ := _]> (pool_after self ocp nlp)).
  pose proof (with_pool_selected self g
                (ensure_penalty_sanity self ocp nlp).1.2
                (ensure_penalty_sanity self ocp nlp).2) as Hwp.
  rewrite (ensure_penalty_sanity_owner self self ocp nlp) in Hwp.
  destruct Hwp as (Hg & Hother & Hown).
  destruct (with_pool (selected_pool self nlp) g _ _) as [ocp' nlp'] eqn:Hw.
  exists ocp', nlp'. simpl in *. split; [reflexivity|]. split; [exact Hg|]. split.
  - intros name Hne. rewrite (Hother name Hne). by apply Hframe.
  - intros other. rewrite Hown. apply ensure_penalty_sanity_owner.
Qed.

(** X10: registration right after allocation always succeeds.  A call of
    [_add_penalty_to_pool] with a non-empty list of controllers, on what
    [ensure_penalty_sanity] has returned, stores the penalty at the slot
    index of the constraint in the pool that was prepared; the pool keeps
    its length and its other entries, and the other pools are as they were
    before the allocation. *)
Theorem registration_after_allocation (self_id : nat) (self : MultinodeConstraint)
    (ocp : Ocp) (nlp : option Nlp) (c : nat) (cs : list nat) :
  exists ocp' nlp',
    _add_penalty_to_pool self_id (link_after self ocp nlp)
      (ControllerSequence (c :: cs))
      (ensure_penalty_sanity self ocp nlp).1.2
      (ensure_penalty_sanity self ocp nlp).2 = inr (ocp', nlp') /\
    pool_of (selected_pool self nlp) ocp' nlp'
      !! Z.to_nat (list_index (parent (link_after self ocp nlp)))
      = Some (PenaltySlot self_id) /\
    length (pool_of (selected_pool self nlp) ocp' nlp')
      = length (pool_after self ocp nlp) /\
    (forall j : nat,
       j <> Z.to_nat (list_index (parent (link_after self ocp nlp))) ->
       pool_of (selected_pool self nlp) ocp' nlp' !! j
       = pool_after self ocp nlp !! j) /\
    (forall name, name <> selected_pool self nlp ->
       pool_of name ocp' nlp' = pool_of name ocp nlp).
Proof.
  destruct (register_after_ensure self_id self ocp nlp c cs)
    as (ocp' & nlp' & Hrun & Hpool & Hframe & _).
  destruct (ensure_penalty_sanity_frame self ocp nlp) as (Hlink & Hafter & _).
  destruct (allocate_slot_ready self (pool_before self ocp nlp))
    as (_ & _ & Hlt & _).
  rewrite <- Hlink, <- Hafter in Hlt.
  exists ocp', nlp'. rewrite Hpool.
  split; [exact Hrun|]. split; [by apply list_lookup_insert_eq|].
  split; [apply length_insert|]. split; [|exact Hframe].
  intros j Hj. apply list_lookup_insert_ne. congruence.
Qed.

(** X11: [_add_penalty_to_pool] fails in three ways only: on an argument
    that is not a list or tuple, on an empty one, and, with a non-empty one,
    exactly when the slot index of the constraint lies outside
    [[-len(pool), len(pool))] for the selected pool. *)
Theorem add_penalty_to_pool_failures (self_id : nat) (self : MultinodeConstraint)
    (controller : ControllerArg) (ocp : Ocp) (nlp : option Nlp) :
  (_add_penalty_to_pool self_id self controller ocp nlp = inl NotCalledWithList
     <-> controller = NotASequence) /\
  (_add_penalty_to_pool self_id self controller ocp nlp = inl EmptySequence
     <-> controller = ControllerSequence []) /\
  (_add_penalty_to_pool self_id self controller ocp nlp = inl AssignmentOutOfRange
     <-> (exists c cs, controller = ControllerSequence (c :: cs)) /\
         (list_index (parent self) < - Z.of_nat (length (pool_before self ocp nlp)) \/
          Z.of_nat (length (pool_before self ocp nlp)) <= list_index (parent self))).
Proof.
  unfold _add_penalty_to_pool, pool_before.
  destruct controller as [|[|c cs]].
  - split; [done|]. split; [done|]. split; [done|]. by intros [(c & cs & H) _].
  - split; [done|]. split; [done|]. split; [done|]. by intros [(c & cs & H) _].
  - pose proof (list_setitem_none (pool_of (selected_pool self nlp) ocp nlp)
                  (list_index (parent self)) (PenaltySlot self_id)) as Hnone.
    destruct (list_setitem _ _ _) as [g|].
    + split; [done|]. split; [done|]. split; [done|].
      intros [_ Hout]. apply Hnone in Hout. discriminate.
    + split; [done|]. split; [done|]. split; [intros _|done].
      split; [by exists c, cs | by apply Hnone].
Qed.

(** X12: registration without allocation.  For a constraint that still has
    the slot index [-1] and a selected pool that is not empty,
    [_add_penalty_to_pool] does not fail: the index counts from the end, and
    the penalty replaces the last entry of the pool, whatever it was. *)
Theorem registration_without_slot_overwrites_last (self_id : nat)
    (self : MultinodeConstraint) (ocp : Ocp) (nlp : option Nlp)
    (c : nat) (cs : list nat) :
  list_index (parent self) = -1 ->
  pool_before self ocp nlp <> [] ->
  registered_pool self_id self (ControllerSequence (c :: cs)) ocp nlp
  = Some (<[(length (pool_before self ocp nlp) - 1)%nat := PenaltySlot self_id]>
            (pool_before self ocp nlp)).
Proof.
  intros Hidx Hne. unfold registered_pool, _add_penalty_to_pool.
  fold (pool_before self ocp nlp). rewrite Hidx.
  assert (Hlen : (0 < length (pool_before self ocp nlp))%nat).
  { destruct (pool_before self ocp nlp); [done | simpl; lia]. }
  unfold list_setitem. simpl.
  destruct (Z.leb_spec 0 (-1 + Z.of_nat (length (pool_before self ocp nlp)))); [|lia].
  destruct (Z.ltb_spec (-1 + Z.of_nat (length (pool_before self ocp nlp)))
              (Z.of_nat (length (pool_before self ocp nlp)))); [|lia].
  simpl.
  replace (Z.to_nat (-1 + Z.of_nat (length (pool_before self ocp nlp))))
    with (length (pool_before self ocp nlp) - 1)%nat by lia.
  set (g := <[_ := _]> (pool_before self ocp nlp)).
  destruct (with_pool_selected self g ocp nlp) as (Hg & _).
  destruct (with_pool (selected_pool self nlp) g ocp nlp) as [ocp' nlp'].
  simpl in Hg. by rewrite Hg.
Qed.

(** A run of X12's theorem: the penalty 9 takes the place of the penalty 5. *)
Lemma registration_without_slot_overwrites_last_witness :
  registered_pool 9 (example_link (-1) 0 [VInt 0; VInt 1])
    (ControllerSequence [0%nat; 1%nat])
    (example_ocp [PenaltySlot 4; PenaltySlot 5] []) None
  = Some [PenaltySlot 4; PenaltySlot 9].
Proof.
  refine (registration_without_slot_overwrites_last 9
            (example_link (-1) 0 [VInt 0; VInt 1])
            (example_ocp [PenaltySlot 4; PenaltySlot 5] []) None
            0%nat [1%nat] _ _).
  - reflexivity.
  - discriminate.
Defined.

(** X13: two constraints never share a slot.  When a constraint has been
    allocated and registered, and a second constraint without a slot is
    then allocated in the same pool, the second one gets another slot
    index, and the first penalty is still in its slot. *)
Theorem second_allocation_takes_another_slot
    (id1 : nat) (self1 self2 : MultinodeConstraint)
    (ocp ocp1 : Ocp) (nlp nlp1 : option Nlp) (c : nat) (cs : list nat) :
  _add_penalty_to_pool id1 (link_after self1 ocp nlp)
    (ControllerSequence (c :: cs))
    (ensure_penalty_sanity self1 ocp nlp).1.2
    (ensure_penalty_sanity self1 ocp nlp).2 = inr (ocp1, nlp1) ->
  Qeq_bool (weight self2) 0 = Qeq_bool (weight self1) 0 ->
  list_index (parent self2) < 0 ->
  list_index (parent (link_after self2 ocp1 nlp1))
    <> list_index (parent (link_after self1 ocp nlp)) /\
  pool_after self2 ocp1 nlp1
    !! Z.to_nat (list_index (parent (link_after self1 ocp nlp)))
    = Some (PenaltySlot id1).
Proof.
  intros Hreg Hw Hfresh.
  destruct (register_after_ensure id1 self1 ocp nlp c cs)
    as (ocp' & nlp' & Hrun & Hpool & _ & Hown).
  rewrite Hrun in Hreg. injection Hreg as -> ->.
  destruct (ensure_penalty_sanity_frame self1 ocp nlp) as (Hlink & Hafter & _).
  destruct (allocate_slot_ready self1 (pool_before self1 ocp nlp))
    as (_ & Hpos1 & Hlt & _).
  rewrite <- Hlink, <- Hafter in *.
  assert (Hbefore : pool_before self2 ocp1 nlp1
                      !! Z.to_nat (list_index (parent (link_after self1 ocp nlp)))
                    = Some (PenaltySlot id1)).
  { unfold pool_before.
    rewrite (Hown self2), (selected_pool_weight self1 self2 nlp Hw), Hpool.
    by apply list_lookup_insert_eq. }
  destruct (ensure_penalty_sanity_frame self2 ocp1 nlp1) as (Hlink2 & Hafter2 & _).
  destruct (allocate_slot_ready self2 (pool_before self2 ocp1 nlp1))
    as (_ & Hpos2 & _ & _ & _ & _ & Hspare).
  destruct (Hspare Hfresh) as [Hkeep Hnot].
  rewrite <- Hlink2, <- Hafter2 in *.
  split; [|by apply Hkeep].
  intros Heq. apply (Hnot id1). by rewrite Heq.
Qed.

(** A run of X13's theorem: a second constraint of weight 0 is allocated
    after the penalty 3 has been registered in slot 0 of an empty
    constraint pool; the penalty is still there. *)
Lemma second_allocation_takes_another_slot_witness :
  pool_after (example_link (-1) 0 [VInt 0; VInt 1])
    (example_ocp [PenaltySlot 3] []) None !! 0%nat
  = Some (PenaltySlot 3).
Proof.
  refine (proj2 (second_allocation_takes_another_slot 3
            (example_link (-1) 0 [VInt 0; VInt 1])
            (example_link (-1) 0 [VInt 0; VInt 1])
            (example_ocp [] []) (example_ocp [PenaltySlot 3] []) None None
            0%nat [1%nat] _ _ _)).
  - reflexivity.
  - reflexivity.
  - simpl. lia.
Defined.

(** ** Preparation of the list, continued *)

Lemma check_phases_state (mnc : nat) (w : World) :
  (check_phases mnc w).1 = w.
Proof.
  unfold check_phases, bind, get.
  generalize (nodes_phase (mnc_store w mnc)) as phases.
  induction phases as [|phase rest IH]; simpl; [reflexivity|].
  unfold bind at 1, lift.
  destruct (phase_out_of_range phase (n_phases (world_ocp w))) as [[|]|e];
    simpl; [reflexivity | exact IH | reflexivity].
Qed.

(** One turn of the loop either leaves the objects alone or marks [mnc]. *)
Lemma prepare_one_state (full : list nat) (mnc : nat) (w : World) :
  (prepare_one full mnc w).1 = w \/ (prepare_one full mnc w).1 = mark_one mnc w.
Proof.
  unfold prepare_one, bind.
  pose proof (check_phases_state mnc w) as Hst.
  destruct (check_phases mnc w) as [w1 [[]|e]]; simpl in Hst; subst w1;
    [|by left].
  unfold get, mark_one, assign_base, modify, ret.
  destruct (truthy (weight (mnc_store w mnc))); simpl; [by right | by left].
Qed.

Lemma set_base_set_base (x : MultinodeConstraint) (b b' : PenaltyBase) :
  set_base (set_base x b) b' = set_base x b'.
Proof. reflexivity. Qed.

Lemma prepare_loop_only_base (self acc : list nat) (w : World) :
  world_ocp (for_fold self acc prepare_one w).1 = world_ocp w /\
  world_nlp (for_fold self acc prepare_one w).1 = world_nlp w /\
  (forall r,
     mnc_store (for_fold self acc prepare_one w).1 r = mnc_store w r \/
     (r ∈ self /\
      mnc_store (for_fold self acc prepare_one w).1 r
      = set_base (mnc_store w r) MayerFunction)).
Proof.
  revert acc w. induction self as [|a rest IH]; intros acc w.
  - simpl. repeat split; try reflexivity. by left.
  - simpl. unfold bind.
    pose proof (prepare_one_state acc a w) as Hone.
    destruct (prepare_one acc a w) as [w1 [acc1|e]]; simpl in Hone.
    + destruct (IH acc1 w1) as (Hocp & Hnlp & Hst).
      destruct (mark_one_frame a w) as (Hocp1 & Hnlp1 & _ & _ & Hm).
      assert (H1 : world_ocp w1 = world_ocp w /\ world_nlp w1 = world_nlp w /\
                   forall r, mnc_store w1 r = mnc_store w r \/
                     (r = a /\ mnc_store w1 r = set_base (mnc_store w r) MayerFunction)).
      { destruct Hone as [-> | ->]; [by repeat split; try left|].
        split; [exact Hocp1|]. split; [exact Hnlp1|].
        intros r. rewrite Hm. unfold marked.
        case_bool_decide as Hr; simpl; [|by left].
        apply list_elem_of_singleton in Hr.
        destruct (truthy _); [by right | by left]. }
      destruct H1 as (Ho & Hn & Hs).
      split; [congruence|]. split; [congruence|].
      intros r. destruct (Hst r) as [Hr | [Hin Hr]], (Hs r) as [Hr1 | [-> Hr1]];
        rewrite Hr, Hr1.
      * by left.
      * right. split; [constructor | reflexivity].
      * right. split; [by constructor | reflexivity].
      * right. split; [constructor | apply set_base_set_base].
    + destruct (mark_one_frame a w) as (Hocp1 & Hnlp1 & _ & _ & Hm).
      destruct Hone as [-> | ->]; [by repeat split; try left|].
      split; [exact Hocp1|]. split; [exact Hnlp1|].
      intros r. rewrite Hm. unfold marked.
      case_bool_decide as Hr; simpl; [|by left].
      apply list_elem_of_singleton in Hr. subst r.
      destruct (truthy _); [right; split; [constructor | reflexivity] | by left].
Qed.

(** X14: whatever the constraints hold, and whether it returns or raises,
    [prepare_multinode_constraints] leaves the program, its phases and
    their pools as they were, and changes nothing on any object but the
    [base] of constraints of the list, which it can only set to
    [MayerFunction]. *)
Theorem prepare_changes_only_base (self : list nat) (w : World) :
  world_ocp (prepare_multinode_constraints self w).1 = world_ocp w /\
  world_nlp (prepare_multinode_constraints self w).1 = world_nlp w /\
  (forall r,
     mnc_store (prepare_multinode_constraints self w).1 r = mnc_store w r \/
     (r ∈ self /\
      mnc_store (prepare_multinode_constraints self w).1 r
      = set_base (mnc_store w r) MayerFunction)).
Proof. apply prepare_loop_only_base. Qed.

Lemma marked_marked (self : list nat) (st : nat -> MultinodeConstraint) (r : nat) :
  marked self (marked self st) r = marked self st r.
Proof.
  unfold marked.
  destruct (bool_decide (r ∈ self)), (truthy (weight (st r))) eqn:Hw;
    simpl; rewrite ?Hw; reflexivity.
Qed.

(** X15: [prepare_multinode_constraints] is idempotent.  On constraints
    with integer phase indices, when a call has returned, a second call on
    the objects it left returns the same list and changes no object. *)
Theorem prepare_idempotent (self result : list nat) (w : World) :
  (forall mnc, mnc ∈ self -> integer_phases w mnc) ->
  (prepare_multinode_constraints self w).2 = Ok result ->
  (prepare_multinode_constraints self
     (prepare_multinode_constraints self w).1).2 = Ok result /\
  (forall r,
     mnc_store (prepare_multinode_constraints self
                  (prepare_multinode_constraints self w).1).1 r
     = mnc_store (prepare_multinode_constraints self w).1 r).
Proof.
  intros Hint. unfold prepare_multinode_constraints.
  destruct (forallb (phases_in_range w) self) eqn:Hall.
  - assert (Hgood : forall mnc, mnc ∈ self ->
                integer_phases w mnc /\ phases_in_range w mnc = true).
    { intros mnc Hin. split; [by apply Hint|].
      rewrite forallb_forall in Hall. by apply Hall, list_elem_of_In. }
    destruct (prepare_loop_ok self [] w Hgood) as (w' & Hrun & Hst & Hocp & _).
    rewrite Hrun. simpl. intros [= <-].
    assert (Hgood' : forall mnc, mnc ∈ self ->
                integer_phases w' mnc /\ phases_in_range w' mnc = true).
    { intros mnc Hin. destruct (Hgood mnc Hin) as [Hi Hr].
      assert (Hph : nodes_phase (mnc_store w' mnc) = nodes_phase (mnc_store w mnc)).
      { rewrite Hst. unfold marked. by destruct (_ && _). }
      unfold integer_phases, phases_in_range in *. by rewrite Hph, Hocp. }
    destruct (prepare_loop_ok self [] w' Hgood') as (w'' & Hrun' & Hst' & _).
    rewrite Hrun'. simpl. split; [reflexivity|].
    intros r. rewrite Hst'.
    transitivity (marked self (marked self (mnc_store w)) r).
    + unfold marked. by rewrite !Hst.
    + by rewrite marked_marked, Hst.
  - destruct (forallb_first_false _ _ Hall) as (pre & bad & suf & -> & Hpre & Hbad).
    assert (Hgood : forall mnc, mnc ∈ pre ->
                integer_phases w mnc /\ phases_in_range w mnc = true).
    { intros mnc Hin. split.
      - apply Hint. apply elem_of_app. by left.
      - rewrite forallb_forall in Hpre. by apply Hpre, list_elem_of_In. }
    assert (Hbi : integer_phases w bad).
    { apply Hint. apply elem_of_app. right. constructor. }
    destruct (prepare_loop_raise pre suf [] bad w Hgood Hbi Hbad) as (w' & -> & _).
    discriminate.
Qed.

(** A run of X15's theorem on the first constraint of the example. *)
Lemma prepare_idempotent_witness :
  (prepare_multinode_constraints [0%nat]
     (prepare_multinode_constraints [0%nat] example_world).1).2 = Ok [0%nat].
Proof.
  refine (proj1 (prepare_idempotent [0%nat] [0%nat] example_world _ _)).
  - intros [|mnc] _; reflexivity.
  - reflexivity.
Defined.

(** X16: constraints built by [__init__] never make the phase comparison
    of line 193 fail.  When the phases of every constraint of the list are
    those of an object [__init__] has returned,
    [prepare_multinode_constraints] either returns the list or raises the
    range-check error. *)
Theorem prepare_on_constructed_constraints (self : list nat) (w : World) :
  (forall mnc, mnc ∈ self ->
     exists parent_init nodes phases mc cf mn mx weight params built,
       __init__ parent_init nodes phases mc cf mn mx weight params = Ok built /\
       nodes_phase (mnc_store w mnc) = nodes_phase built) ->
  (prepare_multinode_constraints self w).2 = Ok self \/
  (prepare_multinode_constraints self w).2 = Raise InvalidPhaseReference.
Proof.
  intros Hbuilt.
  assert (Hint : forall mnc, mnc ∈ self -> integer_phases w mnc).
  { intros mnc Hin.
    destruct (Hbuilt mnc Hin)
      as (pi & ns & ps & mc & cf & mn & mx & wt & pr & built & Hinit & Hph).
    unfold integer_phases. rewrite Hph. revert Hinit. unfold __init__.
    destruct (super_call pi mc cf pr) as [p|e]; [|discriminate].
    rewrite init_after_super_spec.
    destruct (forallb marker_or_int ns); simpl; [|discriminate].
    destruct (forallb isinstance_int ps) eqn:Hps; simpl; [|discriminate].
    case_bool_decide; simpl; [|discriminate].
    by intros [= <-]. }
  unfold prepare_multinode_constraints.
  destruct (forallb (phases_in_range w) self) eqn:Hall.
  - left.
    assert (Hgood : forall mnc, mnc ∈ self ->
                integer_phases w mnc /\ phases_in_range w mnc = true).
    { intros mnc Hin. split; [by apply Hint|].
      rewrite forallb_forall in Hall. by apply Hall, list_elem_of_In. }
    destruct (prepare_loop_ok self [] w Hgood) as (w' & -> & _). reflexivity.
  - right.
    destruct (forallb_first_false _ _ Hall) as (pre & bad & suf & -> & Hpre & Hbad).
    assert (Hgood : forall mnc, mnc ∈ pre ->
                integer_phases w mnc /\ phases_in_range w mnc = true).
    { intros mnc Hin. split.
      - apply Hint. apply elem_of_app. by left.
      - rewrite forallb_forall in Hpre. by apply Hpre, list_elem_of_In. }
    assert (Hbi : integer_phases w bad).
    { apply Hint. apply elem_of_app. right. constructor. }
    destruct (prepare_loop_raise pre suf [] bad w Hgood Hbi Hbad) as (w' & -> & _).
    reflexivity.
Qed.

(** A run of X16's theorem: the example's constraints are what [__init__]
    returns for their nodes and phases. *)
Lemma prepare_on_constructed_constraints_witness :
  (prepare_multinode_constraints [0%nat; 1%nat] example_world).2 = Ok [0%nat; 1%nat] \/
  (prepare_multinode_constraints [0%nat; 1%nat] example_world).2
    = Raise InvalidPhaseReference.
Proof.
  refine (prepare_on_constructed_constraints [0%nat; 1%nat] example_world _).
  intros [|mnc] _.
  - exists recording_parent, [VNode END; VNode START], [VInt 0; VInt 1],
      (VFcn STATES_EQUALITY), VNone, 0%Q, 0%Q, 1%Q, ∅. eexists.
    split; reflexivity.
  - exists recording_parent, [VNode END; VNode START], [VInt 0; VInt 5],
      (VFcn STATES_EQUALITY), VNone, 0%Q, 0%Q, 0%Q, ∅. eexists.
    split; reflexivity.
Defined.

(** ** Occurrence indices, continued *)

Section OccurrenceFacts.
Context {R : Type}.

(** The index a controller holds when the call returns is the one written
    at its last position in the list. *)
Lemma prepared_index_at_last_position (controllers : list nat) (h : Heap R)
    (i c : nat) :
  controllers !! i = Some c ->
  c ∉ drop (S i) controllers ->
  cx_index_to_get (prepared controllers h c) = occurrences_before h controllers i c.
Proof.
  intros Hi Hlater.
  rewrite (proj2 (prepare_controller_cx_returns controllers h)).
  rewrite <- (take_drop (S i) controllers) at 1.
  unfold prepare_loop. rewrite for_fold_app.
  fold (prepare_loop (take (S i) controllers) [] h).
  pose proof (prepare_loop_last (take i controllers) c [] h) as Hlast.
  rewrite <- (take_S_r _ _ _ Hi) in Hlast.
  destruct (prepare_loop_frame (take (S i) controllers) [] h) as (h1 & Hrun & _).
  rewrite Hrun in Hlast |- *. simpl in Hlast.
  match goal with |- context [for_fold _ ?ex _ h1] =>
    fold (prepare_loop (drop (S i) controllers) ex h1);
    destruct (prepare_loop_frame (drop (S i) controllers) ex h1)
      as (h2 & -> & _ & Hout)
  end.
  simpl. rewrite (Hout c Hlater), Hlast.
  rewrite py_sum_count, filter_map_length. reflexivity.
Qed.

Lemma last_position (l : list nat) (c : nat) :
  c ∈ l -> exists i, l !! i = Some c /\ c ∉ drop (S i) l.
Proof.
  induction l as [|a l IH]; [by intros ?%not_elem_of_nil|].
  intros Hin. destruct (decide (c ∈ l)) as [Hl|Hl].
  - destruct (IH Hl) as (i & Hi & Hd). by exists (S i).
  - apply elem_of_cons in Hin as [-> | Hin]; [|contradiction].
    exists 0%nat. split; [reflexivity | exact Hl].
Qed.

Lemma NoDup_not_later (l : list nat) (i c : nat) :
  NoDup l -> l !! i = Some c -> c ∉ drop (S i) l.
Proof.
  intros Hnd Hi [k Hk]%list_elem_of_lookup.
  rewrite lookup_drop in Hk.
  pose proof (NoDup_lookup l i (S i + k) c Hnd Hi Hk). lia.
Qed.

Lemma prepared_frame (controllers : list nat) (h : Heap R) :
  (forall r, phase_idx (prepared controllers h r) = phase_idx (h r) /\
             states (prepared controllers h r) = states (h r) /\
             controls (prepared controllers h r) = controls (h r) /\
             parameters (prepared controllers h r) = parameters (h r)) /\
  (forall r, r ∉ controllers -> prepared controllers h r = h r).
Proof.
  rewrite (proj2 (prepare_controller_cx_returns controllers h)).
  destruct (prepare_loop_frame controllers [] h) as (h' & -> & Hsame & Hout).
  by split.
Qed.

Lemma controller_ext (a b : Controller R) :
  phase_idx a = phase_idx b -> cx_index_to_get a = cx_index_to_get b ->
  states a = states b -> controls a = controls b -> parameters a = parameters b ->
  a = b.
Proof. destruct a, b. simpl. by intros -> -> -> -> ->. Qed.

Lemma occurrences_before_ext (h1 h2 : Heap R) (l : list nat) (i c : nat) :
  (forall r, phase_idx (h1 r) = phase_idx (h2 r)) ->
  occurrences_before h1 l i c = occurrences_before h2 l i c.
Proof.
  intros Hph. unfold occurrences_before. f_equal. f_equal.
  apply list_filter_iff. intros c'. by rewrite !Hph.
Qed.

End OccurrenceFacts.

(** X17: the occurrence indices [_prepare_controller_cx] writes depend on
    the phase indices only, not on the indices the controllers held: two
    stores with the same phase indices give every listed controller the
    same index.  Hence the call is idempotent: a second call changes no
    controller. *)
Theorem occurrence_indices_ignore_stale_values {R : Type}
    (controllers : list nat) (h1 h2 : Heap R) :
  (forall r, phase_idx (h1 r) = phase_idx (h2 r)) ->
  (forall c, c ∈ controllers ->
     cx_index_to_get (prepared controllers h1 c)
     = cx_index_to_get (prepared controllers h2 c)) /\
  (forall r, prepared controllers (prepared controllers h1) r
             = prepared controllers h1 r).
Proof.
  intros Hph.
  assert (Hindep : forall (ha hb : Heap R),
            (forall r, phase_idx (ha r) = phase_idx (hb r)) ->
            forall c, c ∈ controllers ->
              cx_index_to_get (prepared controllers ha c)
              = cx_index_to_get (prepared controllers hb c)).
  { intros ha hb Hab c (i & Hi & Hlater)%last_position.
    rewrite !(prepared_index_at_last_position controllers _ i c Hi Hlater).
    by apply occurrences_before_ext. }
  split; [by apply Hindep|].
  intros r.
  destruct (prepared_frame controllers h1) as [Hsame Hout].
  destruct (prepared_frame controllers (prepared controllers h1)) as [Hsame' Hout'].
  destruct (decide (r ∈ controllers)) as [Hin|Hnin]; [|by apply Hout'].
  destruct (Hsame' r) as (Hp & Hs & Hc & Hpa).
  apply controller_ext; try assumption.
  apply Hindep; [|exact Hin]. intros r'. apply Hsame.
Qed.

(** A run of X17's theorem: indices computed from a store of stale indices
    and from a store of phases alone. *)
Lemma occurrence_indices_ignore_stale_values_witness :
  cx_index_to_get (prepared [0%nat; 2%nat] stale_heap 2%nat)
  = cx_index_to_get (prepared [0%nat; 2%nat]
      (fun r => set_cx_index_to_get (stale_heap r) 0) 2%nat).
Proof.
  refine (proj1 (occurrence_indices_ignore_stale_values [0%nat; 2%nat]
            stale_heap (fun r => set_cx_index_to_get (stale_heap r) 0) _)
            2%nat _).
  - intros r. reflexivity.
  - apply elem_of_cons. right. constructor.
Defined.

(** X18: within one call, distinct controller objects of one phase get
    distinct occurrence indices, increasing along the list. *)
Theorem same_phase_controllers_get_increasing_indices {R : Type}
    (controllers : list nat) (h : Heap R) (i j ci cj : nat) :
  NoDup controllers ->
  controllers !! i = Some ci ->
  controllers !! j = Some cj ->
  (i < j)%nat ->
  phase_idx (h ci) = phase_idx (h cj) ->
  cx_index_to_get (prepared controllers h ci)
    < cx_index_to_get (prepared controllers h cj).
Proof.
  intros Hnd Hi Hj Hlt Hph.
  rewrite (prepared_index_at_last_position controllers h i ci Hi
             (NoDup_not_later controllers i ci Hnd Hi)).
  rewrite (prepared_index_at_last_position controllers h j cj Hj
             (NoDup_not_later controllers j cj Hnd Hj)).
  unfold occurrences_before. rewrite <- Hph.
  rewrite <- (take_drop (S i) (take j controllers)).
  rewrite take_take, Nat.min_l by lia.
  rewrite (take_S_r _ _ _ Hi), !filter_app, !length_app.
  rewrite filter_cons, decide_True by reflexivity. simpl. lia.
Qed.

(** A run of X18's theorem: objects 0 and 2 are both of phase 0. *)
Lemma same_phase_controllers_get_increasing_indices_witness :
  cx_index_to_get (prepared [0%nat; 1%nat; 2%nat] stale_heap 0%nat)
    < cx_index_to_get (prepared [0%nat; 1%nat; 2%nat] stale_heap 2%nat).
Proof.
  refine (same_phase_controllers_get_increasing_indices
            [0%nat; 1%nat; 2%nat] stale_heap 0 2 0 2 _ _ _ _ _).
  - refine (bool_decide_unpack _ _). reflexivity.
  - reflexivity.
  - reflexivity.
  - lia.
  - reflexivity.
Defined.

(** X19: [_prepare_controller_cx] never raises and touches nothing but
    [cx_index_to_get]: phase index, states, controls and parameters of
    every controller are as before, controllers that are not listed are
    unchanged, and a listed controller gets an index between 0 and its last
    position in the list, hence below the number of controllers. *)
Theorem prepare_controller_cx_frame_and_bounds {R : Type}
    (controllers : list nat) (h : Heap R) :
  (_prepare_controller_cx controllers h).2 = Ok tt /\
  (forall r, phase_idx (prepared controllers h r) = phase_idx (h r) /\
             states (prepared controllers h r) = states (h r) /\
             controls (prepared controllers h r) = controls (h r) /\
             parameters (prepared controllers h r) = parameters (h r)) /\
  (forall r, r ∉ controllers -> prepared controllers h r = h r) /\
  (forall c, c ∈ controllers ->
     0 <= cx_index_to_get (prepared controllers h c)
       < Z.of_nat (length controllers)).
Proof.
  split; [by rewrite (proj1 (prepare_controller_cx_returns controllers h))|].
  destruct (prepared_frame controllers h) as [Hsame Hout].
  split; [exact Hsame|]. split; [exact Hout|].
  intros c (i & Hi & Hlater)%last_position.
  rewrite (prepared_index_at_last_position controllers h i c Hi Hlater).
  unfold occurrences_before.
  pose proof (length_filter (fun c' => phase_idx (h c') = phase_idx (h c))
                (take i controllers)) as Hf.
  rewrite length_take in Hf. apply lookup_lt_Some in Hi. lia.
Qed.

(** X20: [custom] always calls the user function, once the occurrence
    indices are set: its outcome is the outcome of the user function on the
    controllers [_prepare_controller_cx] has left. *)
Theorem custom_runs_on_prepared_controllers {R : Type}
    (custom_function : list nat -> M (Heap R) (CX R))
    (controllers : list nat) (h : Heap R) :
  custom custom_function controllers h
  = custom_function controllers (prepared controllers h).
Proof.
  unfold custom, bind.
  by rewrite (proj1 (prepare_controller_cx_returns controllers h)).
Qed.

(** ** State, control and duration equality, continued *)

Section ResidualFacts.
Context {R : Type} {scalar : Scalar R}.

Lemma for_fold_state {S A B} (l : list A) (acc : B) (body : B -> A -> M S B) (s : S) :
  (forall acc x s, (body acc x s).1 = s) ->
  (for_fold l acc body s).1 = s.
Proof.
  intros Hbody. revert acc. induction l as [|x l IH]; intros acc; [reflexivity|].
  simpl. unfold bind. pose proof (Hbody acc x s) as Hx.
  destruct (body acc x s) as [s1 [acc1|e]]; simpl in Hx; subst s1; [apply IH | reflexivity].
Qed.

Lemma equality_body_state read f (v0 : CX R) body :
  equality_body read f v0 body -> forall out c h, (body out c h).1 = h.
Proof.
  intros Hbody out c h. rewrite Hbody.
  destruct (read h c); [|reflexivity]. by destruct (negb _).
Qed.

(** When the loop returns, every vector it has read had the shape of the
    first one, and so has the result. *)
Lemma equality_loop_success read f (v0 : CX R) body (rest : list nat)
    (out out' : CX R) (h h' : Heap R) :
  equality_body read f v0 body ->
  for_fold rest out body h = (h', Ok out') ->
  (forall c, c ∈ rest -> exists x, read h c = Some x /\ shape v0 = shape (f x)) /\
  (length out = length v0 -> length out' = length v0).
Proof.
  intros Hbody. revert out. induction rest as [|c rest IH]; intros out.
  - simpl. unfold ret. intros [= <- <-]. split; [|done].
    by intros c ?%not_elem_of_nil.
  - simpl. unfold bind. rewrite Hbody.
    destruct (read h c) as [x|] eqn:Hx; [|discriminate].
    case_bool_decide as Hshape; simpl; [|discriminate].
    intros Hrun. destruct (IH _ Hrun) as [Hall Hlen]. split.
    + intros c' [-> | Hin]%elem_of_cons; [by exists x | by apply Hall].
    + intros Hout. apply Hlen. unfold vadd, vsub.
      rewrite !length_zip_with. injection Hshape as Hs. lia.
Qed.

Lemma states_equality_cases (m : BiMapping R) (controllers : list nat)
    (key : string) (h : Heap R) :
  states_equality m controllers key h =
  match controllers with
  | [] => (prepared controllers h, Raise SequenceIndexError)
  | c0 :: rest =>
      match read_states (prepared controllers h) c0 key with
      | None => (prepared controllers h, Raise UnknownKey)
      | Some x0 =>
          for_fold rest (zeros (shape (mapping_map (to_second m) x0)))
            (fun out ctrl_i =>
               cx_i <- states_cx ctrl_i key ;;
               let states_i := mapping_map (to_first m) cx_i in
               if negb (bool_decide (shape (mapping_map (to_second m) x0)
                                     = shape states_i))
               then raise ShapeMismatch
               else ret (vadd out (vsub (mapping_map (to_second m) x0) states_i)))
            (prepared controllers h)
      end
  end.
Proof.
  destruct controllers as [|c0 rest].
  - unfold states_equality, bind.
    by rewrite (proj1 (prepare_controller_cx_returns [] h)).
  - destruct (read_states (prepared (c0 :: rest) h) c0 key) as [x0|] eqn:H0.
    + by apply states_equality_unfold.
    + unfold states_equality, bind at 1.
      rewrite (proj1 (prepare_controller_cx_returns (c0 :: rest) h)).
      unfold bind at 1, lift, first_controller. unfold bind at 1.
      by rewrite states_cx_spec, H0.
Qed.

Lemma controls_equality_cases (controllers : list nat) (key : string) (h : Heap R) :
  controls_equality controllers key h =
  match controllers with
  | [] => (prepared controllers h, Raise SequenceIndexError)
  | c0 :: rest =>
      match read_controls (prepared controllers h) c0 key with
      | None => (prepared controllers h, Raise UnknownKey)
      | Some x0 =>
          for_fold rest (zeros (shape x0))
            (fun out ctrl_i =>
               controls_i <- controls_cx ctrl_i key ;;
               if negb (bool_decide (shape x0 = shape controls_i))
               then raise ShapeMismatch
               else ret (vadd out (vsub x0 controls_i)))
            (prepared controllers h)
      end
  end.
Proof.
  destruct controllers as [|c0 rest].
  - unfold controls_equality, bind.
    by rewrite (proj1 (prepare_controller_cx_returns [] h)).
  - destruct (read_controls (prepared (c0 :: rest) h) c0 key) as [x0|] eqn:H0.
    + by apply controls_equality_unfold.
    + unfold controls_equality, bind at 1.
      rewrite (proj1 (prepare_controller_cx_returns (c0 :: rest) h)).
      unfold bind at 1, lift, first_controller. unfold bind at 1.
      by rewrite controls_cx_spec, H0.
Qed.

(** [time_equality] on two controllers, case by case. *)
Lemma time_equality_cases (pre post : nat) (h : Heap R) :
  time_equality [pre; post] h =
  (prepared [pre; post] h,
   match located_time (parameters (h pre)) (phase_idx (h pre)) with
   | None => Raise (MissingTimeParameter false)
   | Some _ =>
       match located_time (parameters (h post)) (phase_idx (h post)) with
       | None => Raise (MissingTimeParameter true)
       | Some _ =>
           match casadi_getitem (parameters (h pre)) (phase_idx (h pre)),
                 casadi_getitem (parameters (h post)) (phase_idx (h post)) with
           | Ok time_pre, Ok time_post => Ok (ssub (snd time_pre) (snd time_post))
           | Raise e, _ => Raise e
           | Ok _, Raise e => Raise e
           end
       end
   end).
Proof.
  unfold time_equality, bind at 1.
  rewrite (proj1 (prepare_controller_cx_returns [pre; post] h)).
  destruct (prepared_frame [pre; post] h) as [Hsame _].
  unfold bind, lift, unpack_pair, get. simpl.
  destruct (Hsame pre) as (-> & _ & _ & ->).
  destruct (Hsame post) as (-> & _ & _ & ->).
  rewrite !find_time_idx_spec.
  destruct (located_time (parameters (h pre)) (phase_idx (h pre))); [|reflexivity].
  destruct (located_time (parameters (h post)) (phase_idx (h post))); [|reflexivity].
  destruct (casadi_getitem (parameters (h pre)) (phase_idx (h pre))); [|reflexivity].
  by destruct (casadi_getitem (parameters (h post)) (phase_idx (h post))).
Qed.




Lemma vadd_zeros_l (v : CX R) (n : nat) :
  (forall x : R, sadd szero x = x) -> n = length v ->
  vadd (replicate n szero) v = v.
Proof.
  intros Hzero ->. unfold vadd.
  induction v as [|x v IH]; simpl; [reflexivity|]. by rewrite Hzero, IH.
Qed.

End ResidualFacts.

(** X21: whether they return or raise, [states_equality],
    [controls_equality] and [time_equality] leave the controllers exactly
    as [_prepare_controller_cx] leaves them: they write nothing but the
    occurrence indices. *)
Theorem residual_functions_only_set_indices {R : Type} {scalar : Scalar R}
    (m : BiMapping R) (controllers : list nat) (key : string) (h : Heap R) :
  (states_equality m controllers key h).1 = prepared controllers h /\
  (controls_equality controllers key h).1 = prepared controllers h /\
  (time_equality controllers h).1 = prepared controllers h.
Proof.
  split; [|split].
  - rewrite states_equality_cases. destruct controllers as [|c0 rest]; [reflexivity|].
    destruct (read_states _ c0 key) as [x0|]; [|reflexivity].
    apply for_fold_state.
    apply (equality_body_state _ _ _ _ (states_body m key _)).
  - rewrite controls_equality_cases. destruct controllers as [|c0 rest]; [reflexivity|].
    destruct (read_controls _ c0 key) as [x0|]; [|reflexivity].
    apply for_fold_state.
    apply (equality_body_state _ _ _ _ (controls_body key _)).
  - destruct controllers as [|pre [|post [|c l]]];
      try (unfold time_equality, bind;
           by rewrite (proj1 (prepare_controller_cx_returns _ h))).
    by rewrite time_equality_cases.
Qed.

(** X22: when [states_equality] returns, the list was not empty, the first
    controller has the variable [key], every later controller has it with
    mapped states of the shape of the first one's mapped states, and the
    residual has that shape too; the same holds for [controls_equality] on
    the raw controls. *)
Theorem equality_returns_only_on_equal_shapes {R : Type} {scalar : Scalar R}
    (m : BiMapping R) (controllers : list nat) (key : string) (h : Heap R)
    (out : CX R) :
  ((states_equality m controllers key h).2 = Ok out ->
   exists c0 rest x0,
     controllers = c0 :: rest /\
     read_states (prepared controllers h) c0 key = Some x0 /\
     shape out = shape (mapping_map (to_second m) x0) /\
     forall c, c ∈ rest ->
       exists x, read_states (prepared controllers h) c key = Some x /\
                 shape (mapping_map (to_first m) x)
                 = shape (mapping_map (to_second m) x0)) /\
  ((controls_equality controllers key h).2 = Ok out ->
   exists c0 rest u0,
     controllers = c0 :: rest /\
     read_controls (prepared controllers h) c0 key = Some u0 /\
     shape out = shape u0 /\
     forall c, c ∈ rest ->
       exists u, read_controls (prepared controllers h) c key = Some u /\
                 shape u = shape u0).
Proof.
  split.
  - rewrite states_equality_cases. destruct controllers as [|c0 rest]; [discriminate|].
    destruct (read_states _ c0 key) as [x0|] eqn:H0; [|discriminate].
    intros Hrun. exists c0, rest, x0. split; [reflexivity|]. split; [exact H0|].
    match type of Hrun with (?run).2 = _ =>
      destruct run as [h' r] eqn:Hloop end.
    simpl in Hrun. subst r.
    destruct (equality_loop_success _ _ _ _ _ _ _ _ _ (states_body m key _) Hloop)
      as [Hall Hlen].
    split.
    + unfold shape. f_equal. apply Hlen.
      unfold zeros, shape. simpl. rewrite length_replicate. lia.
    + intros c Hc. destruct (Hall c Hc) as (x & Hx & Hs). by exists x.
  - rewrite controls_equality_cases. destruct controllers as [|c0 rest]; [discriminate|].
    destruct (read_controls _ c0 key) as [u0|] eqn:H0; [|discriminate].
    intros Hrun. exists c0, rest, u0. split; [reflexivity|]. split; [exact H0|].
    match type of Hrun with (?run).2 = _ =>
      destruct run as [h' r] eqn:Hloop end.
    simpl in Hrun. subst r.
    destruct (equality_loop_success _ _ _ _ _ _ _ _ _ (controls_body key _) Hloop)
      as [Hall Hlen].
    split.
    + unfold shape. f_equal. apply Hlen.
      unfold zeros, shape. simpl. rewrite length_replicate. lia.
    + intros c Hc. destruct (Hall c Hc) as (x & Hx & Hs). by exists x.
Qed.

(** A run of X22's theorem on the three controllers that share their
    states. *)
Lemma equality_returns_only_on_equal_shapes_witness :
  exists c0 rest x0,
    [0%nat; 1%nat; 2%nat] = c0 :: rest /\
    read_states (prepared [0%nat; 1%nat; 2%nat] continuity_heap) c0 "all" = Some x0 /\
    shape [0; 0] = shape (mapping_map (to_second identity_mapping) x0) /\
    forall c, c ∈ rest ->
      exists x, read_states (prepared [0%nat; 1%nat; 2%nat] continuity_heap) c "all"
                = Some x /\
                shape (mapping_map (to_first identity_mapping) x)
                = shape (mapping_map (to_second identity_mapping) x0).
Proof.
  refine (proj1 (equality_returns_only_on_equal_shapes identity_mapping
            [0%nat; 1%nat; 2%nat] "all" continuity_heap [0; 0]) _).
  reflexivity.
Defined.

(** X23: on two controllers whose vectors have one shape, in an arithmetic
    where [0 + x = x], [states_equality] returns the mapped states of the
    first controller minus the mapped states of the second one, entry by
    entry, and [controls_equality] the controls of the first minus the
    controls of the second. *)
Theorem equality_of_two_is_first_minus_second {R : Type} {scalar : Scalar R}
    (m : BiMapping R) (c0 c1 : nat) (key : string) (h : Heap R) (x0 x1 : CX R) :
  (forall x : R, sadd szero x = x) ->
  (read_states (prepared [c0; c1] h) c0 key = Some x0 ->
   read_states (prepared [c0; c1] h) c1 key = Some x1 ->
   shape (mapping_map (to_second m) x0) = shape (mapping_map (to_first m) x1) ->
   (states_equality m [c0; c1] key h).2
   = Ok (vsub (mapping_map (to_second m) x0) (mapping_map (to_first m) x1))) /\
  (read_controls (prepared [c0; c1] h) c0 key = Some x0 ->
   read_controls (prepared [c0; c1] h) c1 key = Some x1 ->
   shape x0 = shape x1 ->
   (controls_equality [c0; c1] key h).2 = Ok (vsub x0 x1)).
Proof.
  intros Hzero. split.
  - intros H0 H1 Hshape. rewrite states_equality_cases, H0.
    simpl. unfold bind. rewrite states_cx_spec, H1. simpl.
    rewrite bool_decide_true by exact Hshape. simpl. unfold ret. simpl.
    f_equal. unfold zeros, shape. simpl. apply vadd_zeros_l; [exact Hzero|].
    unfold vsub. rewrite length_zip_with. injection Hshape as Hs. lia.
  - intros H0 H1 Hshape. rewrite controls_equality_cases, H0.
    simpl. unfold bind. rewrite controls_cx_spec, H1. simpl.
    rewrite bool_decide_true by exact Hshape. simpl. unfold ret. simpl.
    f_equal. unfold zeros, shape. simpl. apply vadd_zeros_l; [exact Hzero|].
    unfold vsub. rewrite length_zip_with. injection Hshape as Hs. lia.
Qed.

(** A run of X23's theorem: states [[0]] of the controller of phase 0
    against states [[10]] of the controller of phase 1. *)
Lemma equality_of_two_is_first_minus_second_witness :
  (states_equality identity_mapping [0%nat; 1%nat] "all" two_phase_heap).2
  = Ok [-10].
Proof.
  refine (proj1 (equality_of_two_is_first_minus_second identity_mapping
            0%nat 1%nat "all" two_phase_heap [0] [10] _) _ _ _);
    reflexivity.
Defined.

(** X24: the edge cases of the list of controllers.  On an empty list
    [states_equality] and [controls_equality] fail on [controllers[0]]; on a
    single controller that has the variable [key] they compare nothing and
    return the zero vector of the shape of its (mapped) vector. *)
Theorem equality_on_short_lists {R : Type} {scalar : Scalar R}
    (m : BiMapping R) (c0 : nat) (key : string) (h : Heap R) (x0 : CX R) :
  (states_equality m [] key h).2 = Raise SequenceIndexError /\
  (controls_equality [] key h).2 = Raise SequenceIndexError /\
  (read_states (prepared [c0] h) c0 key = Some x0 ->
   (states_equality m [c0] key h).2
   = Ok (replicate (length (mapping_map (to_second m) x0)) szero)) /\
  (read_controls (prepared [c0] h) c0 key = Some x0 ->
   (controls_equality [c0] key h).2 = Ok (replicate (length x0) szero)).
Proof.
  split; [by rewrite states_equality_cases|].
  split; [by rewrite controls_equality_cases|]. split.
  - intros H0. rewrite states_equality_cases, H0. simpl.
    unfold zeros, shape. simpl. by rewrite Nat.mul_1_r.
  - intros H0. rewrite controls_equality_cases, H0. simpl.
    unfold zeros, shape. simpl. by rewrite Nat.mul_1_r.
Qed.

(** A run of X24's theorem on a single controller. *)
Lemma equality_on_short_lists_witness :
  (states_equality identity_mapping [0%nat] "all" continuity_heap).2 = Ok [0; 0].
Proof.
  refine (proj1 (proj2 (proj2 (equality_on_short_lists identity_mapping
            0%nat "all" continuity_heap [4; 7]))) _).
  reflexivity.
Defined.

(** X25: [time_equality] takes exactly two controllers: on a list of any
    other length the unpacking of line 402 fails with a [ValueError],
    whatever the parameters hold. *)
Theorem time_equality_needs_two_controllers {R : Type} {scalar : Scalar R}
    (controllers : list nat) (h : Heap R) :
  length controllers <> 2%nat ->
  (time_equality controllers h).2 = Raise UnpackError /\
  exc_class UnpackError = ValueError.
Proof.
  intros Hlen. split; [|reflexivity].
  unfold time_equality, bind.
  rewrite (proj1 (prepare_controller_cx_returns controllers h)).
  by destruct controllers as [|pre [|post [|c l]]].
Qed.

(** A run of X25's theorem on three controllers. *)
Lemma time_equality_needs_two_controllers_witness :
  (time_equality [0%nat; 1%nat; 2%nat] time_heap).2 = Raise UnpackError /\
  exc_class UnpackError = ValueError.
Proof.
  refine (time_equality_needs_two_controllers [0%nat; 1%nat; 2%nat] time_heap _).
  simpl. lia.
Defined.




(** ** [NonLinearProgram.__init__] *)

Lemma nlp_parameters_NoDup : NoDup (nlp_parameters.*1).
Proof. refine (bool_decide_unpack _ _). vm_compute. reflexivity. Qed.

Lemma nlp_attributes_lookup (kwargs : gmap string Obj) (name : string) :
  (list_to_map
     (List.map (fun '(name, dflt) =>
                  (name, stored_value name (bound_argument kwargs name dflt)))
               nlp_parameters) : gmap string Obj) !! name
  = (fun dflt => stored_value name (bound_argument kwargs name dflt))
      <$> (list_to_map nlp_parameters : gmap string Obj) !! name.
Proof.
  pose proof nlp_parameters_NoDup as Hnd. revert Hnd.
  generalize nlp_parameters as ps.
  induction ps as [|[n d] ps IH]; intros Hnd; simpl.
  - by rewrite !lookup_empty.
  - apply NoDup_cons in Hnd as [Hn Hnd].
    destruct (decide (n = name)) as [->|Hne].
    + by rewrite !lookup_insert_eq.
    + rewrite !lookup_insert_ne by done. by apply IH.
Qed.

Lemma nlp_init_lookup (kwargs self : gmap string Obj) (name : string) :
  NonLinearProgram_init kwargs = Some self ->
  self !! name
  = (fun dflt => stored_value name (bound_argument kwargs name dflt))
      <$> (list_to_map nlp_parameters : gmap string Obj) !! name.
Proof.
  unfold NonLinearProgram_init.
  match goal with |- context [if ?b then _ else _] => generalize b end.
  intros [|]; [|discriminate].
  intros Hself. apply (inj Some) in Hself. rewrite <- Hself.
  apply nlp_attributes_lookup.
Qed.

Lemma nlp_default_of_mapping_and_shape :
  (list_to_map nlp_parameters : gmap string Obj) !! "mapping" = Some (ORef 5) /\
  (list_to_map nlp_parameters : gmap string Obj) !! "shape" = Some (ORef 8).
Proof. split; vm_compute; reflexivity. Qed.

Lemma nlp_default_lists (name : string) :
  name ∈ ["J"; "dynamics"; "g"; "g_bounds"] ->
  exists a,
    (list_to_map nlp_parameters : gmap string Obj) !! name = Some (ORef a) /\
    stored_value name (ORef a) = ORef a.
Proof.
  intros Hname.
  apply elem_of_cons in Hname as [-> | Hname];
    [exists 0%nat; split; vm_compute; reflexivity|].
  apply elem_of_cons in Hname as [-> | Hname];
    [exists 2%nat; split; vm_compute; reflexivity|].
  apply elem_of_cons in Hname as [-> | Hname];
    [exists 3%nat; split; vm_compute; reflexivity|].
  apply elem_of_cons in Hname as [-> | Hname];
    [exists 4%nat; split; vm_compute; reflexivity|].
  by apply not_elem_of_nil in Hname.
Qed.

Lemma built_nlp_spec (kwargs : gmap string Obj) :
  bool_decide (map_Forall (fun name _ => name ∈ nlp_parameters.*1) kwargs) = true ->
  NonLinearProgram_init kwargs = Some (built_nlp kwargs).
Proof.
  intros Hknown. unfold built_nlp, NonLinearProgram_init.
  rewrite Hknown. reflexivity.
Qed.

(** X28: an object [NonLinearProgram.__init__] returns has an attribute for
    each of its parameters and no other; each attribute holds the argument
    bound to the parameter (the keyword argument, or the default), except
    [mapping] and [shape], which hold a tuple of one item, the argument. *)
Theorem nlp_init_attributes (kwargs self : gmap string Obj) :
  NonLinearProgram_init kwargs = Some self ->
  (forall name dflt, (name, dflt) ∈ nlp_parameters ->
     self !! name = Some (stored_value name (bound_argument kwargs name dflt))) /\
  (forall name, name ∉ nlp_parameters.*1 -> self !! name = None) /\
  self !! "mapping" = Some (OTuple1 (bound_argument kwargs "mapping" (ORef 5))) /\
  self !! "shape" = Some (OTuple1 (bound_argument kwargs "shape" (ORef 8))) /\
  (forall name dflt, (name, dflt) ∈ nlp_parameters ->
     name <> "mapping" -> name <> "shape" ->
     self !! name = Some (bound_argument kwargs name dflt)).
Proof.
  intros Hself.
  assert (Hall : forall name dflt, (name, dflt) ∈ nlp_parameters ->
            self !! name
            = Some (stored_value name (bound_argument kwargs name dflt))).
  { intros name dflt Hin. rewrite (nlp_init_lookup kwargs self name Hself).
    rewrite (elem_of_list_to_map_1 _ _ _ nlp_parameters_NoDup Hin).
    reflexivity. }
  destruct nlp_default_of_mapping_and_shape as [Hm Hs].
  split; [exact Hall|]. split; [|split; [|split]].
  - intros name Hnot. rewrite (nlp_init_lookup kwargs self name Hself).
    rewrite (not_elem_of_list_to_map_1 _ _ Hnot). reflexivity.
  - rewrite (nlp_init_lookup kwargs self "mapping" Hself), Hm. reflexivity.
  - rewrite (nlp_init_lookup kwargs self "shape" Hself), Hs. reflexivity.
  - intros name dflt Hin Hnm Hns. rewrite (Hall name dflt Hin).
    unfold stored_value. rewrite !bool_decide_false by assumption. reflexivity.
Qed.

(** A run of X28's theorem: the dict 20 given as [mapping] is stored inside
    a tuple. *)
Lemma nlp_init_attributes_witness :
  built_nlp {["mapping" := ORef 20]} !! "mapping" = Some (OTuple1 (ORef 20)).
Proof.
  refine (proj1 (proj2 (proj2 (nlp_init_attributes {["mapping" := ORef 20]}
            (built_nlp {["mapping" := ORef 20]}) _)))).
  apply built_nlp_spec. vm_compute. reflexivity.
Defined.

(** X29: the default lists are shared.  Two objects built without an
    argument for [J] (or [dynamics], [g], [g_bounds]) hold one and the same
    list under that attribute, so an [append] through the first object
    shows through the second. *)
Theorem nlp_default_lists_are_shared
    (kwargs1 kwargs2 self1 self2 : gmap string Obj) (name : string) :
  name ∈ ["J"; "dynamics"; "g"; "g_bounds"] ->
  kwargs1 !! name = None ->
  kwargs2 !! name = None ->
  NonLinearProgram_init kwargs1 = Some self1 ->
  NonLinearProgram_init kwargs2 = Some self2 ->
  exists o,
    self1 !! name = Some o /\ self2 !! name = Some o /\
    forall store l v,
      contents o store = Some l ->
      exists store',
        list_append o v store = Some store' /\
        (forall o2, self2 !! name = Some o2 ->
           contents o2 store' = Some (l ++ [v])).
Proof.
  intros Hname Hk1 Hk2 H1 H2.
  destruct (nlp_default_lists name Hname) as (a & Hdflt & Hstored).
  assert (Ho : forall kwargs self,
            kwargs !! name = None -> NonLinearProgram_init kwargs = Some self ->
            self !! name = Some (ORef a)).
  { intros kwargs self Hk Hself.
    rewrite (nlp_init_lookup kwargs self name Hself), Hdflt.
    unfold bound_argument. rewrite Hk. simpl. by rewrite Hstored. }
  exists (ORef a).
  split; [by apply (Ho kwargs1)|]. split; [by apply (Ho kwargs2)|].
  intros store l v Hl. unfold list_append, contents in *. rewrite Hl.
  eexists. split; [reflexivity|].
  intros o2. rewrite (Ho kwargs2 self2 Hk2 H2). intros Ho2.
  injection Ho2 as <-. apply lookup_insert_eq.
Qed.

(** A run of X29's theorem: two objects built without [J], one of them
    without any argument. *)
Lemma nlp_default_lists_are_shared_witness :
  exists o,
    built_nlp ∅ !! "J" = Some o /\
    built_nlp {["ns" := OVal (VInt 30)]} !! "J" = Some o /\
    forall store l v,
      contents o store = Some l ->
      exists store',
        list_append o v store = Some store' /\
        (forall o2, built_nlp {["ns" := OVal (VInt 30)]} !! "J" = Some o2 ->
           contents o2 store' = Some (l ++ [v])).
Proof.
  refine (nlp_default_lists_are_shared ∅ {["ns" := OVal (VInt 30)]}
            (built_nlp ∅) (built_nlp {["ns" := OVal (VInt 30)]}) "J" _ _ _ _ _).
  - constructor.
  - reflexivity.
  - reflexivity.
  - apply built_nlp_spec. vm_compute. reflexivity.
  - apply built_nlp_spec. vm_compute. reflexivity.
Defined.
